(** * spew-bot web client: job lifecycle as seen from the browser

    A shallow embedding of the TypeScript client under [client/src]
    ([lib/api.ts], [lib/job-context.tsx], the dashboard page,
    [app/results/[jobId]/page.tsx], [components/job-result.tsx]) and of the
    job orchestrator and status reader described in the design document,
    followed by the properties of the job lifecycle proved over them.

    Conventions of the embedding.
    - A JavaScript string is a [string] whose characters are the UTF-16 code
      units below 256; [null] and [undefined] of an optional field are both
      [None] where the code only tests the field for truthiness.
    - An [async] function is split where it awaits the network: the part run
      synchronously by the caller, and the part run when the response
      settles.  The response is an argument of the second part.
    - React state set with [setX] is a field of an explicit state record;
      a [useRef] cell is a field of a record of references; the values a
      closure captured at the render that created it are explicit
      arguments. *)

From Stdlib Require Import String Ascii List ZArith Bool Lia DecimalString.
From stdpp Require Import base strings gmap list.
Import ListNotations.
Local Open Scope string_scope.
Local Set Warnings "-register-all".

(** ** JavaScript strings *)
Module Js.

(** WhiteSpace and LineTerminator code units below 256 (ECMA-262, 12.2
    and 12.3): TAB, LF, VT, FF, CR, SP and NBSP. *)
Definition isWhiteSpace (c : ascii) : bool :=
  let n := nat_of_ascii c in
  ((9 <=? n)%nat && (n <=? 13)%nat) || (n =? 32)%nat || (n =? 160)%nat.

Fixpoint trimStart (s : string) : string :=
  match s with
  | EmptyString => EmptyString
  | String c r => if isWhiteSpace c then trimStart r else s
  end.

Fixpoint trimEnd (s : string) : string :=
  match s with
  | EmptyString => EmptyString
  | String c r =>
      match trimEnd r with
      | EmptyString => if isWhiteSpace c then EmptyString else String c EmptyString
      | r' => String c r'
      end
  end.

(** [String.prototype.trim] *)
Definition trim (s : string) : string := trimEnd (trimStart s).

(** A string with no code unit other than white space (the empty string
    among them). *)
Fixpoint whitespaceOnly (s : string) : bool :=
  match s with
  | EmptyString => true
  | String c r => isWhiteSpace c && whitespaceOnly r
  end.

(** ToBoolean on a string: only the empty string is falsy. *)
Definition truthy (s : string) : bool := negb (String.eqb s "").

(** ToBoolean on an optional string: [null], [undefined] and the empty
    string are falsy. *)
Definition truthy_opt (o : option string) : bool :=
  match o with
  | Some s => truthy s
  | None => false
  end.

(** [a || b] where [a] is an optional string and [b] a string. *)
Definition or_else (a : option string) (b : string) : string :=
  match a with
  | Some s => if truthy s then s else b
  | None => b
  end.

(** [s === t] on strings. *)
Definition seq (s t : string) : bool := String.eqb s t.

(** [String.prototype.toLowerCase] on code units below 256: A-Z and the
    Latin-1 capitals (all of 0xC0-0xDE but the multiplication sign). *)
Definition lowerChar (c : ascii) : ascii :=
  let n := nat_of_ascii c in
  if ((65 <=? n)%nat && (n <=? 90)%nat)
     || ((192 <=? n)%nat && (n <=? 222)%nat && negb (n =? 215)%nat)
  then ascii_of_nat (n + 32) else c.

Fixpoint toLowerCase (s : string) : string :=
  match s with
  | EmptyString => EmptyString
  | String c r => String (lowerChar c) (toLowerCase r)
  end.

Fixpoint startsWith (s p : string) : bool :=
  match p, s with
  | EmptyString, _ => true
  | String _ _, EmptyString => false
  | String b p', String a s' => Ascii.eqb a b && startsWith s' p'
  end.

(** [String.prototype.includes] *)
Fixpoint includes (s p : string) : bool :=
  startsWith s p ||
  match s with
  | EmptyString => false
  | String _ r => includes r p
  end.

(** The first and the last code unit of a string, if any. *)
Definition firstChar (s : string) : option ascii :=
  match s with
  | EmptyString => None
  | String c _ => Some c
  end.

Fixpoint lastChar (s : string) : option ascii :=
  match s with
  | EmptyString => None
  | String c EmptyString => Some c
  | String _ r => lastChar r
  end.

(** The names of the members that an object written [{}] inherits from
    [Object.prototype] (ECMA-262, 20.1.3 and B.2.2).  Reading one of them
    on an object that has no property of that name of its own yields a
    function (the prototype itself for [__proto__]), which is truthy. *)
Definition objectPrototypeMembers : list string :=
  ["constructor"; "hasOwnProperty"; "isPrototypeOf"; "propertyIsEnumerable";
   "toLocaleString"; "toString"; "valueOf"; "__proto__";
   "__defineGetter__"; "__defineSetter__"; "__lookupGetter__"; "__lookupSetter__"].

Definition inherited (key : string) : bool :=
  existsb (String.eqb key) objectPrototypeMembers.

(** Template-literal rendering of a non-negative integer. *)
Definition numberToString (n : nat) : string :=
  NilEmpty.string_of_uint (Nat.to_uint n).

End Js.

(** ** [lib/api.ts] *)
Module Api.

Record Celebrity := { id : string; name : string; image : string }.

Record JobRequest := { query : string; persona : string }.

Module JobUpdate.
Record t := {
  id : Z;
  job_id : string;
  status : string;
  message : string;
  created_at : string
}.
End JobUpdate.

(** The content of the [job] object of the API response.  The declared
    type of [status] is the union below; nothing checks it at run time,
    so the field holds whatever string the response carried. *)
Module JobDetails.
Record t := {
  job_id : string;
  status : string;
  created_at : string;
  updated_at : option string;
  completed_at : option string;
  error : option string;
  result : option string;
  persona_id : option string;
  query : option string;
  video_available : option bool;
  video_url : option string
}.

(** ["pending" | "processing" | "completed" | "failed" | "error"] *)
Definition status_type : list string :=
  ["pending"; "processing"; "completed"; "failed"; "error"].
End JobDetails.

Record FetchedJobData := {
  job : JobDetails.t;
  updates : list JobUpdate.t
}.

(** The parsed body of a response to [POST /jobs] when it is an object
    whose members are strings: a [JobCreationResponse] on success, an
    object with an [error] member otherwise.  A member that is absent is
    [None].  (A body that is not an object, and a member that is [null]
    or not a string, have no value in this type; where the code tells
    them from an absent member the properties below say so.) *)
Record CreateBody := {
  cb_job_id : option string;
  cb_status : option string;
  cb_error : option string
}.

(** A value raised by [throw] or a rejected promise. *)
Inductive Thrown :=
| Error (message : string)
| NonError.

Inductive Promise (A : Type) :=
| Resolved (a : A)
| Rejected (e : Thrown).
Arguments Resolved {A} a.
Arguments Rejected {A} e.

(** What [fetch] settles to: a rejection (network failure), or a
    response with its [ok] flag, its [status] code and what
    [response.json()] yields (the parsed body, or the message of the
    SyntaxError when the body does not parse). *)
Inductive FetchResult (B : Type) :=
| NetworkFailure (e : Thrown)
| Response (ok : bool) (status : nat) (json : B + string).
Arguments NetworkFailure {B} e.
Arguments Response {B} ok status json.

Record Request := {
  method : string;
  url : string;
  body : option JobRequest
}.

(** An element of the body of a response to [GET /personas], with the
    members that [fetchPersonas] reads (taken to be present). *)
Record PersonaJson := {
  p_id : string;
  p_name : string;
  p_icon_url : string
}.

(** [response.json()] as a promise. *)
Definition json {B} (j : B + string) : Promise B :=
  match j with
  | inl b => Resolved b
  | inr msg => Rejected (Error msg)
  end.

Section WithEnv.
(** [process.env.NEXT_PUBLIC_API_BASE_URL] *)
Variable NEXT_PUBLIC_API_BASE_URL : option string.

Definition API_BASE_URL : string :=
  Js.or_else NEXT_PUBLIC_API_BASE_URL "http://localhost:8000/api".

(** *** createJob *)
Definition createJob_request (query personaId : string) : Request :=
  {| method := "POST";
     url := API_BASE_URL ++ "/jobs";
     body := Some {| query := query; persona := personaId |} |}.

Definition createJob (r : FetchResult CreateBody) : Promise CreateBody :=
  match r with
  | NetworkFailure e => Rejected e
  | Response ok status j =>
      if negb ok then
        match json j with
        | Resolved errorData =>
            Rejected (Error (Js.or_else (cb_error errorData)
                               ("Failed to create job: " ++ Js.numberToString status)))
        | Rejected e => Rejected e
        end
      else json j
  end.

(** *** getJobStatus *)
Definition getJobStatus_request (jobId : string) : Request :=
  {| method := "GET";
     url := API_BASE_URL ++ "/jobs/" ++ jobId;
     body := None |}.

Definition getJobStatus (r : FetchResult FetchedJobData) : Promise FetchedJobData :=
  match r with
  | NetworkFailure e => Rejected e
  | Response ok status j =>
      if negb ok then
        Rejected (Error ("Failed to fetch job status: " ++ Js.numberToString status))
      else json j
  end.

(** *** getJobWithUpdates *)
Definition getJobWithUpdates_request (jobId : string) : Request :=
  {| method := "GET";
     url := API_BASE_URL ++ "/jobs/" ++ jobId;
     body := None |}.

Definition getJobWithUpdates (r : FetchResult FetchedJobData) : Promise FetchedJobData :=
  match r with
  | NetworkFailure e => Rejected e
  | Response ok status j =>
      if negb ok then
        Rejected (Error ("Failed to fetch job with updates: " ++ Js.numberToString status))
      else json j
  end.

(** *** fetchPersonas *)
Definition fetchPersonas_request : Request :=
  {| method := "GET"; url := API_BASE_URL ++ "/personas"; body := None |}.

Definition fetchPersonas (r : FetchResult (list PersonaJson))
  : Promise (list Celebrity) :=
  match r with
  | NetworkFailure e => Rejected e
  | Response ok status j =>
      if negb ok then
        Rejected (Error ("Failed to fetch personas: " ++ Js.numberToString status))
      else
        match json j with
        | Resolved data =>
            Resolved (map (fun persona =>
                             {| id := p_id persona; name := p_name persona;
                                image := p_icon_url persona |}) data)
        | Rejected e => Rejected e
        end
  end.
End WithEnv.

End Api.

(** ** [lib/job-context.tsx] *)
Module JobContext.
Import Api.

(** The three [useState] cells of [JobProvider]. *)
Record State := {
  jobData : option FetchedJobData;
  loading : bool;
  error : option string
}.

(** The two [useRef] cells of [JobProvider], objects written [{}] and
    used as maps keyed by job id.  The map holds the properties of the
    object itself, which are set by assignment; a key that is not in the
    map is read through the prototype (see [fetching]). *)
Record Refs := {
  lastFetchTime : gmap string Z;
  isFetching : gmap string bool
}.

Definition initialState : State :=
  {| jobData := None; loading := false; error := None |}.

Definition initialRefs : Refs :=
  {| lastFetchTime := ∅; isFetching := ∅ |}.

Definition setJobData (d : option FetchedJobData) (st : State) : State :=
  {| jobData := d; loading := loading st; error := error st |}.

Definition setLoading (b : bool) (st : State) : State :=
  {| jobData := jobData st; loading := b; error := error st |}.

Definition setError (e : option string) (st : State) : State :=
  {| jobData := jobData st; loading := loading st; error := e |}.

Definition clearJob (st : State) : State :=
  setError None (setJobData None st).

(** [err instanceof Error ? err.message : fallback] *)
Definition messageOf (e : Thrown) (fallback : string) : string :=
  match e with
  | Error m => m
  | NonError => fallback
  end.

(** The snapshot [fetchJobById] makes up when a fetch for the job is in
    flight and nothing is cached. *)
Definition pendingJob (jobId nowIso : string) : FetchedJobData :=
  {| job := {| JobDetails.job_id := jobId;
               JobDetails.status := "pending";
               JobDetails.created_at := nowIso;
               JobDetails.updated_at := None;
               JobDetails.completed_at := None;
               JobDetails.error := None;
               JobDetails.result := None;
               JobDetails.persona_id := None;
               JobDetails.query := None;
               JobDetails.video_available := None;
               JobDetails.video_url := None |};
     updates := [] |}.

(** [isFetching.current[jobId]] as a condition: the property of the
    object itself when it has one, and otherwise what the prototype
    gives, truthy for the names of [Js.objectPrototypeMembers] and
    [undefined] for every other name. *)
Definition fetching (refs : Refs) (jobId : string) : bool :=
  match isFetching refs !! jobId with
  | Some b => b
  | None => Js.inherited jobId
  end.

(** [lastFetchTime.current[jobId] || 0], for a key that the object holds
    itself or that the prototype does not provide.  The provider reads it
    only for a job that [fetching] found not in flight, and it assigns
    the two cells together (the in-flight mark, then the time), so the
    members that the prototype provides are never read here: a name of
    [Js.objectPrototypeMembers] is in flight for ever and never becomes a
    key of either map. *)
Definition lastFetch (refs : Refs) (jobId : string) : Z :=
  default 0%Z (lastFetchTime refs !! jobId).

Definition setFetching (jobId : string) (b : bool) (refs : Refs) : Refs :=
  {| lastFetchTime := lastFetchTime refs;
     isFetching := <[jobId := b]> (isFetching refs) |}.

Definition setLastFetchTime (jobId : string) (t : Z) (refs : Refs) : Refs :=
  {| lastFetchTime := <[jobId := t]> (lastFetchTime refs);
     isFetching := isFetching refs |}.

(** How far a call of an [async] function gets before it first awaits
    the network: it has returned already ([Immediate]), or it has
    changed the references and the state and issued a request
    ([Awaiting]). *)
Inductive Begun (A : Type) :=
| Immediate (a : A)
| Awaiting (refs : Refs) (st : State) (req : Request).
Arguments Immediate {A} a.
Arguments Awaiting {A} refs st req.

Section WithEnv.
Variable NEXT_PUBLIC_API_BASE_URL : option string.

(** *** createNewJob *)
Definition createNewJob_begin (query personaId : string) (st : State)
  : State * Request :=
  (setJobData None (setError None (setLoading true st)),
   createJob_request NEXT_PUBLIC_API_BASE_URL query personaId).

Definition createNewJob_settle (r : FetchResult CreateBody) (st : State)
  : State * Promise CreateBody :=
  match createJob r with
  | Resolved newJobDetails => (setLoading false st, Resolved newJobDetails)
  | Rejected err =>
      let errorMessage := messageOf err "Failed to create job" in
      (setLoading false (setError (Some errorMessage) st),
       Rejected (Error errorMessage))
  end.

(** *** fetchJobById

    [jobData_c] is the [jobData] the callback captured: [useCallback]
    rebuilds it when [jobData] changes, and a caller that kept an
    older callback runs it with the older value.  [now] is
    [Date.now()] and [nowIso] is [new Date().toISOString()]. *)
Definition fetchJobById_begin (jobData_c : option FetchedJobData)
    (now : Z) (nowIso : string) (jobId : string)
    (refs : Refs) (st : State) : Begun FetchedJobData :=
  if fetching refs jobId then
    Immediate (match jobData_c with
               | Some d => d
               | None => pendingJob jobId nowIso
               end)
  else
    let lastFetch := lastFetch refs jobId in
    match jobData_c with
    | Some d =>
        if (now - lastFetch <? 3000)%Z
           && Js.seq (JobDetails.job_id (job d)) jobId
        then Immediate d
        else Awaiting (setLastFetchTime jobId now (setFetching jobId true refs))
                      (setLoading true st)
                      (getJobStatus_request NEXT_PUBLIC_API_BASE_URL jobId)
    | None =>
        Awaiting (setLastFetchTime jobId now (setFetching jobId true refs))
                 (setLoading true st)
                 (getJobStatus_request NEXT_PUBLIC_API_BASE_URL jobId)
    end.

Definition fetchJobById_settle (jobId : string)
    (r : FetchResult FetchedJobData) (refs : Refs) (st : State)
  : Refs * State * Promise FetchedJobData :=
  match getJobStatus r with
  | Resolved fetchedData =>
      (setFetching jobId false refs,
       setLoading false (setError None (setJobData (Some fetchedData) st)),
       Resolved fetchedData)
  | Rejected err =>
      let message := messageOf err "Failed to fetch job" in
      (setFetching jobId false refs,
       setLoading false (setError (Some message) st),
       Rejected err)
  end.

(** A call of [fetchJobById] made with the callback of the latest
    render (which captured the [jobData] of the state) and settled
    before anything else happens; the last component lists the
    requests it sent. *)
Definition fetchJobById (now : Z) (nowIso : string) (jobId : string)
    (r : FetchResult FetchedJobData) (refs : Refs) (st : State)
  : Refs * State * Promise FetchedJobData * list Request :=
  match fetchJobById_begin (jobData st) now nowIso jobId refs st with
  | Immediate d => (refs, st, Resolved d, [])
  | Awaiting refs1 st1 req =>
      let '(refs2, st2, p) := fetchJobById_settle jobId r refs1 st1 in
      (refs2, st2, p, [req])
  end.
End WithEnv.

End JobContext.

(** ** The dashboard page ([DashboardPage]) *)
Module Dashboard.
Import Api.

(** The [useState] cells of [DashboardPage] that [handleGenerate] reads
    or writes. *)
Record State := {
  selectedCelebrity : option Celebrity;
  topic : string;
  isSubmitting : bool;
  loadError : option string
}.

Definition setIsSubmitting (b : bool) (p : State) : State :=
  {| selectedCelebrity := selectedCelebrity p; topic := topic p;
     isSubmitting := b; loadError := loadError p |}.

Definition setLoadError (e : option string) (p : State) : State :=
  {| selectedCelebrity := selectedCelebrity p; topic := topic p;
     isSubmitting := isSubmitting p; loadError := e |}.

(** [selectedCelebrity && topic.trim() && !isSubmitting] *)
Definition canSubmit (p : State) : bool :=
  match selectedCelebrity p with
  | Some _ => Js.truthy (Js.trim (topic p)) && negb (isSubmitting p)
  | None => false
  end.

Section WithEnv.
Variable NEXT_PUBLIC_API_BASE_URL : option string.

(** [handleGenerate] up to its [await]: [None] when the guard on the
    first line returns, with nothing changed and nothing sent. *)
Definition handleGenerate_begin (p : State) (ctx : JobContext.State)
  : option (State * JobContext.State * Request) :=
  match selectedCelebrity p with
  | None => None
  | Some celebrity =>
      if negb (Js.truthy (Js.trim (topic p))) || isSubmitting p then None
      else
        let p1 := setLoadError None (setIsSubmitting true p) in
        let ctx1 := JobContext.clearJob ctx in
        let '(ctx2, req) :=
          JobContext.createNewJob_begin NEXT_PUBLIC_API_BASE_URL
            (Js.trim (topic p)) (id celebrity) ctx1 in
        Some (p1, ctx2, req)
  end.

(** [handleGenerate] from the settling of [createNewJob] on; the last
    component is the route given to [router.push], if any. *)
Definition handleGenerate_settle (r : FetchResult CreateBody)
    (p : State) (ctx : JobContext.State)
  : State * JobContext.State * option string :=
  match JobContext.createNewJob_settle r ctx with
  | (ctx', Resolved newJob) =>
      (setIsSubmitting false p, ctx',
       Some ("/results/" ++ default "undefined" (cb_job_id newJob)))
  | (ctx', Rejected _) =>
      (setIsSubmitting false
         (setLoadError
            (Some "Failed to start explanation generation. Please try again.") p),
       ctx', None)
  end.

(** What a click on the button leaves behind. *)
Record Outcome := {
  o_page : State;
  o_ctx : JobContext.State;
  o_requests : list Request;
  o_pushed : option string
}.

(** [handleGenerate] run to its end, [r] being the answer of the
    backend if a request is sent. *)
Definition handleGenerate (r : FetchResult CreateBody)
    (p : State) (ctx : JobContext.State) : Outcome :=
  match handleGenerate_begin p ctx with
  | None =>
      {| o_page := p; o_ctx := ctx; o_requests := []; o_pushed := None |}
  | Some (p1, ctx1, req) =>
      let '(p2, ctx2, route) := handleGenerate_settle r p1 ctx1 in
      {| o_page := p2; o_ctx := ctx2; o_requests := [req]; o_pushed := route |}
  end.

(** The [useState] cells of [DashboardPage] that hold the personas. *)
Record Catalog := {
  celebrities : list Celebrity;
  loadingCelebrities : bool
}.

(** [loadCelebrities], the effect run at the first render, up to its
    [await]. *)
Definition loadCelebrities_begin (cat : Catalog) (p : State)
  : Catalog * State * Request :=
  ({| celebrities := celebrities cat; loadingCelebrities := true |},
   setLoadError None p,
   fetchPersonas_request NEXT_PUBLIC_API_BASE_URL).

(** [loadCelebrities] from the settling of [fetchPersonas] on. *)
Definition loadCelebrities_settle (r : FetchResult (list PersonaJson))
    (cat : Catalog) (p : State) : Catalog * State :=
  match fetchPersonas r with
  | Resolved data =>
      ({| celebrities := data; loadingCelebrities := false |}, p)
  | Rejected err =>
      ({| celebrities := celebrities cat; loadingCelebrities := false |},
       setLoadError (Some (JobContext.messageOf err "Failed to load personas")) p)
  end.

(** [celebrities.filter((celeb) =>
    celeb.name.toLowerCase().includes(searchTerm.toLowerCase()))] *)
Definition filteredCelebrities (celebrities : list Celebrity)
    (searchTerm : string) : list Celebrity :=
  List.filter
    (fun celeb => Js.includes (Js.toLowerCase (name celeb)) (Js.toLowerCase searchTerm))
    celebrities.

(** What the persona column shows below its title: the loading state,
    the grid of cards, the "No Matching Personas" alert or the "No
    Personas Available" alert. *)
Inductive Panel :=
| LoadingPanel
| GridPanel (cards : list Celebrity)
| NoMatchPanel (searchTerm : string)
| NoPersonasPanel.

(** The four conditional blocks of the persona column, in the order of
    the source. *)
Definition personaPanels (cat : Catalog) (searchTerm : string)
    (loadError : option string) : list Panel :=
  let filtered := filteredCelebrities (celebrities cat) searchTerm in
  ((if loadingCelebrities cat then [LoadingPanel] else [])
   ++ (if negb (loadingCelebrities cat)
          && (0 <? length (celebrities cat))%nat
          && (0 <? length filtered)%nat
       then [GridPanel filtered] else [])
   ++ (if negb (loadingCelebrities cat)
          && (0 <? length (celebrities cat))%nat
          && (length filtered =? 0)%nat
       then [NoMatchPanel searchTerm] else [])
   ++ (if negb (loadingCelebrities cat)
          && (length (celebrities cat) =? 0)%nat
          && negb (Js.truthy_opt loadError)
       then [NoPersonasPanel] else []))%list.
End WithEnv.

End Dashboard.

(** ** [app/results/[jobId]/page.tsx] *)
Module Results.
Import Api.

(** The two [useRef] cells of [JobResultsPage].  [timeoutRef] is [Some
    delay] while a timer set with that delay is waiting to fire; a timer
    that fired or was cleared is [None] (in the source the cell may keep
    the handle of a timer that fired, on which [clearTimeout] does
    nothing). *)
Record Refs := {
  timeoutRef : option Z;
  isUnmountedRef : bool
}.

(** What the closures of one render of [JobResultsPage] captured:
    [params.jobId] and the [jobData] of the context at that render.
    [scheduleFetch] and the callback of [useEffect] are such closures,
    and so is the [fetchJobById] they call, taken from the context at
    the same render. *)
Record Render := {
  jobId : string;
  jobData : option FetchedJobData
}.

(** [!jobData?.job?.status || (status !== "completed" && status !==
    "failed" && status !== "error")] *)
Definition statusAllowsPolling (jobData : option FetchedJobData) : bool :=
  match jobData with
  | None => true
  | Some d =>
      let status := JobDetails.status (job d) in
      negb (Js.truthy status)
      || (negb (Js.seq status "completed")
          && negb (Js.seq status "failed")
          && negb (Js.seq status "error"))
  end.

Definition scheduleFetch (rd : Render) (refs : Refs) : Refs :=
  let refs1 := {| timeoutRef := None; isUnmountedRef := isUnmountedRef refs |} in
  if negb (isUnmountedRef refs1)
     && Js.truthy (jobId rd)
     && statusAllowsPolling (jobData rd)
  then {| timeoutRef := Some 5000%Z; isUnmountedRef := isUnmountedRef refs1 |}
  else refs1.

(** The page together with the provider it reads, and the requests sent
    to the backend so far (oldest first). *)
Record World := {
  page : Refs;
  ctxRefs : JobContext.Refs;
  ctx : JobContext.State;
  sent : list Request
}.

Definition withPage (f : Refs -> Refs) (w : World) : World :=
  {| page := f (page w); ctxRefs := ctxRefs w; ctx := ctx w; sent := sent w |}.

Section WithEnv.
Variable NEXT_PUBLIC_API_BASE_URL : option string.

(** [fetchJobById(jobId).then(scheduleFetch).catch(scheduleFetch)] with
    the response [r] of the backend, should a request be sent: both
    outcomes of the promise reschedule. *)
Definition fetchThenSchedule (rd : Render) (now : Z) (nowIso : string)
    (r : FetchResult FetchedJobData) (w : World) : World :=
  match JobContext.fetchJobById_begin NEXT_PUBLIC_API_BASE_URL
          (jobData rd) now nowIso (jobId rd) (ctxRefs w) (ctx w) with
  | JobContext.Immediate _ => withPage (scheduleFetch rd) w
  | JobContext.Awaiting refs1 st1 req =>
      let '(refs2, st2, _) :=
        JobContext.fetchJobById_settle (jobId rd) r refs1 st1 in
      {| page := scheduleFetch rd (page w);
         ctxRefs := refs2; ctx := st2; sent := sent w ++ [req] |}
  end.

(** The callback given to [setTimeout], run when the timer fires. *)
Definition onTimeout (rd : Render) (now : Z) (nowIso : string)
    (r : FetchResult FetchedJobData) (w : World) : World :=
  let w1 := withPage (fun refs =>
              {| timeoutRef := None; isUnmountedRef := isUnmountedRef refs |}) w in
  if negb (isUnmountedRef (page w1)) && Js.truthy (jobId rd)
  then fetchThenSchedule rd now nowIso r w1
  else w1.

(** The body of the effect, run after the render [rd] when [jobId]
    changed (and at the first render). *)
Definition effect (rd : Render) (now : Z) (nowIso : string)
    (r : FetchResult FetchedJobData) (w : World) : World :=
  let w1 := withPage (fun refs =>
              {| timeoutRef := timeoutRef refs; isUnmountedRef := false |}) w in
  if Js.truthy (jobId rd) then
    let ctx1 :=
      match jobData rd with
      | Some d =>
          if negb (Js.seq (JobDetails.job_id (job d)) (jobId rd))
          then JobContext.clearJob (ctx w1) else ctx w1
      | None => ctx w1
      end in
    fetchThenSchedule rd now nowIso r
      {| page := page w1; ctxRefs := ctxRefs w1; ctx := ctx1; sent := sent w1 |}
  else w1.

(** The cleanup of the effect. *)
Definition cleanup (w : World) : World :=
  withPage (fun _ => {| timeoutRef := None; isUnmountedRef := true |}) w.

(** Polling: the timer fires as long as one is waiting; each firing
    takes the clock readings and the response of the backend from the
    list.  Every round runs with the same [rd]: the callback of the timer
    and the [scheduleFetch] it calls are the closures of the render that
    ran the effect, the effect runs again only when [jobId] changes, and
    the closures that later renders create are called by nothing. *)
Fixpoint poll (rd : Render)
    (rs : list (Z * string * FetchResult FetchedJobData)) (w : World) : World :=
  match rs with
  | [] => w
  | (now, nowIso, r) :: rs' =>
      match timeoutRef (page w) with
      | Some _ => poll rd rs' (onTimeout rd now nowIso r w)
      | None => w
      end
  end.
End WithEnv.

(** The state of affairs between two firings of the timer: a timer is
    waiting, the page is mounted, and no fetch for the job is in flight. *)
Definition polling (rd : Render) (w : World) : Prop :=
  timeoutRef (page w) = Some 5000%Z
  /\ isUnmountedRef (page w) = false
  /\ JobContext.fetching (ctxRefs w) (jobId rd) = false.

Definition initialWorld : World :=
  {| page := {| timeoutRef := None; isUnmountedRef := false |};
     ctxRefs := JobContext.initialRefs;
     ctx := JobContext.initialState;
     sent := [] |}.

End Results.

(** ** [components/job-result.tsx] *)
Module View.
Import Api.

(** Rendered markup: text, and elements with the attributes that carry
    data ([className] and event handlers are left out). *)
Inductive Html :=
| Txt (s : string)
| El (tag : string) (attrs : list (string * string)) (kids : list Html).

(** Whether an element with tag [t] occurs in the markup. *)
Fixpoint hasTag (t : string) (h : Html) : bool :=
  match h with
  | Txt _ => false
  | El tag _ kids => String.eqb tag t || existsb (hasTag t) kids
  end.

(** Whether the text [s] occurs as a text node. *)
Fixpoint hasText (s : string) (h : Html) : bool :=
  match h with
  | Txt s' => String.eqb s' s
  | El _ _ kids => existsb (hasText s) kids
  end.

(** The texts that directly follow the text [label] at the start of an
    element, anywhere in the markup: what is displayed after a caption
    such as ["Reason: "]. *)
Fixpoint textAfter (label : string) (h : Html) : list string :=
  match h with
  | Txt _ => []
  | El _ _ kids =>
      match kids with
      | Txt l :: Txt x :: _ => if String.eqb l label then [x] else []
      | _ => []
      end ++ flat_map (textAfter label) kids
  end.

(** The values of the attribute [name] on the elements with tag [tag],
    in document order. *)
Fixpoint attrValues (tag name : string) (h : Html) : list string :=
  match h with
  | Txt _ => []
  | El t attrs kids =>
      (if String.eqb t tag
       then map snd (List.filter (fun a => String.eqb (fst a) name) attrs)
       else [])
      ++ flat_map (attrValues tag name) kids
  end.

(** The texts of the [h3] headings, in document order. *)
Fixpoint headings (h : Html) : list string :=
  match h with
  | Txt _ => []
  | El t _ kids =>
      (if String.eqb t "h3"
       then flat_map (fun k => match k with Txt s => [s] | El _ _ _ => [] end) kids
       else [])
      ++ flat_map headings kids
  end.

Definition icon (name : string) : Html := El name [] [].

Definition getStatusIcon (status : string) : Html :=
  let lowerStatus := Js.toLowerCase status in
  if Js.includes lowerStatus "complete" then icon "CheckCircle"
  else if Js.includes lowerStatus "fail" then icon "AlertCircle"
  else if Js.includes lowerStatus "error" then icon "AlertCircle"
  else if Js.includes lowerStatus "processing" then icon "Loader"
  else if Js.includes lowerStatus "created" then icon "FilePlus"
  else if Js.includes lowerStatus "generating speech" then icon "MessageSquare"
  else if Js.includes lowerStatus "generating visuals" then icon "Clapperboard"
  else icon "Loader".

Definition JobIdDisplay (id : option string) : list Html :=
  if negb (Js.truthy_opt id) then []
  else
    [El "div" []
       [El "label" [("htmlFor", "jobIdInput")] [Txt "Job ID:"];
        El "Input" [("id", "jobIdInput"); ("value", default "" id); ("readOnly", "")] []]].

Definition Button (disabled : bool) (label : string) : Html :=
  El "Button" (if disabled then [("disabled", "")] else []) [Txt label].

Section WithLocale.
(** [new Date(s).toLocaleTimeString([], {hour, minute, second})],
    which depends on the locale and the time zone of the browser. *)
Variable toLocaleTimeString : string -> string.

Definition updateRow (update : JobUpdate.t) : Html :=
  El "div" []
    [El "div" [] [getStatusIcon (JobUpdate.status update)];
     El "div" []
       (El "div" []
          [El "span" [] [Txt (JobUpdate.status update)];
           El "span" [] [Txt (toLocaleTimeString (JobUpdate.created_at update))]]
        :: (if Js.truthy (JobUpdate.message update)
            then [El "p" [] [Txt (JobUpdate.message update)]]
            else []))].

Definition UpdatesTimeline (updates : list JobUpdate.t) (title : string)
  : list Html :=
  match updates with
  | [] => []
  | _ =>
      [El "div" []
         [El "div" [] [El "h3" [] [Txt title]];
          El "div" [] [El "div" [] (map updateRow updates)]]]
  end.

Definition LoadingView (currentJobId : string) : list Html :=
  [El "div" []
     [El "div" []
        (El "div" [] [icon "Loader"; El "p" [] [Txt "Retrieving job details..."]]
         :: JobIdDisplay (Some currentJobId))]].

Definition ContextErrorView (error currentJobId : string) : list Html :=
  [El "div" []
     [El "div" []
        [El "div" [] [icon "AlertCircle"; El "h3" [] [Txt "Error"]];
         El "p" [] [Txt "We encountered a problem retrieving the job details."]];
      El "div" [] (El "p" [] [Txt error] :: JobIdDisplay (Some currentJobId));
      El "div" [] [Button false "Try Again"]]].

Definition FailedView (jobDetails : JobDetails.t) (jobUpdates : list JobUpdate.t)
  : list Html :=
  [El "div" []
     [El "div" []
        [El "div" [] [icon "AlertCircle"; El "h3" [] [Txt "Generation Failed"]];
         El "p" [] [Txt "We couldn't generate your explanation."]];
      El "div" []
        (El "p" []
           [Txt "Reason: ";
            Txt (Js.or_else (JobDetails.error jobDetails) "Unknown error occurred")]
         :: JobIdDisplay (Some (JobDetails.job_id jobDetails))
         ++ UpdatesTimeline jobUpdates "Attempt Details");
      El "div" [] [Button false "Try Again"]]].

(** [jobDetails.video_url ? `http://127.0.0.1:8000${jobDetails.video_url}` : null] *)
Definition absoluteVideoUrl (jobDetails : JobDetails.t) : option string :=
  match JobDetails.video_url jobDetails with
  | Some u => if Js.truthy u then Some ("http://127.0.0.1:8000" ++ u) else None
  | None => None
  end.

Definition VideoPlayer (src : string) : Html :=
  El "div" []
    [El "video"
       [("controls", ""); ("width", "100%"); ("src", src);
        ("autoPlay", ""); ("playsInline", "")]
       [Txt "Your browser does not support the video tag."]].

Definition VideoPlaceholder : Html :=
  El "div" []
    [icon "Video";
     El "p" [] [Txt "Video is not available for this explanation."]].

Definition CompletedView (jobDetails : JobDetails.t) (jobUpdates : list JobUpdate.t)
  : list Html :=
  [El "div" []
     ((if default false (JobDetails.video_available jobDetails)
          && Js.truthy_opt (absoluteVideoUrl jobDetails)
       then VideoPlayer (default "" (absoluteVideoUrl jobDetails))
       else VideoPlaceholder)
      :: (if Js.truthy_opt (JobDetails.result jobDetails)
          then [El "div" []
                  [El "label" [("htmlFor", "explanationText")]
                     [Txt "Generated Explanation Text"];
                   El "Textarea"
                     [("id", "explanationText");
                      ("value", default "" (JobDetails.result jobDetails));
                      ("readOnly", ""); ("rows", "10")] []]]
          else [])
      ++ JobIdDisplay (Some (JobDetails.job_id jobDetails))
      ++ UpdatesTimeline jobUpdates "Generation Timeline"
      ++ [El "div" [] [Button false "Generate Another"]])].

Definition ProcessingView (loading : bool) (jobDetails : JobDetails.t)
    (jobUpdates : list JobUpdate.t) : list Html :=
  [El "div" []
     (JobIdDisplay (Some (JobDetails.job_id jobDetails))
      ++ [El "p" []
            [Txt "Status: "; Txt (JobDetails.status jobDetails);
             Txt ". Your request is being processed. Please be patient."]]
      ++ UpdatesTimeline jobUpdates "Current Progress"
      ++ [El "div" []
            [Button loading (if loading then "Processing..." else "Cancel / Reset")]])].

Definition WaitingView (currentJobId : string) : list Html :=
  [El "div" []
     (El "p" [] [Txt "Waiting for job information..."]
      :: (if Js.truthy currentJobId then JobIdDisplay (Some currentJobId) else []))].

(** [JobResult], a function of the context and of [params.jobId]. *)
Definition JobResult (st : JobContext.State) (currentJobId : string)
  : list Html :=
  let jobData := JobContext.jobData st in
  let loading := JobContext.loading st in
  let error := JobContext.error st in
  let jobUpdates := match jobData with Some d => updates d | None => [] end in
  match jobData with
  | None =>
      if loading && negb (Js.truthy_opt error) then LoadingView currentJobId
      else if Js.truthy_opt error then ContextErrorView (default "" error) currentJobId
      else []
  | Some d =>
      let jobDetails := job d in
      let status := JobDetails.status jobDetails in
      if Js.seq status "failed" || Js.seq status "error"
      then FailedView jobDetails jobUpdates
      else if Js.seq status "completed"
      then CompletedView jobDetails jobUpdates
      else if Js.seq status "pending" || Js.seq status "processing"
              || Js.seq status "created"
      then ProcessingView loading jobDetails jobUpdates
      else WaitingView currentJobId
  end.
End WithLocale.

End View.

(** ** [components/process-steps.tsx] *)
Module ProcessSteps.
Import View.





End ProcessSteps.

(** ** The job orchestrator of the server

    The server is not among the sources of the client; the definitions of
    this module follow the design document (sections 3, 4.1, 4.2 and 4.4)
    and each says so. *)
Module Orchestrator.

Module Stage.
(** Modelled from the spec: the five named stages of the Pipeline Graph
    (section 4.2); the server code that declares them is missing. *)
Inductive t :=
| script_generation
| speech_synthesis
| visual_generation
| lipsync_processing
| video_assembly.

(** Modelled from the spec: equality of the stages of the missing
    Pipeline Graph is decidable. *)
#[global] Instance eq_dec : EqDecision t.
Proof. solve_decision. Defined.

(** Modelled from the spec: a numbering of the stages of the missing
    Pipeline Graph, in pipeline order. *)
Definition index (s : t) : nat :=
  match s with
  | script_generation => 0
  | speech_synthesis => 1
  | visual_generation => 2
  | lipsync_processing => 3
  | video_assembly => 4
  end.

(** Modelled from the spec: the stage with a given number in the
    missing Pipeline Graph. *)
Definition ofIndex (n : nat) : option t :=
  match n with
  | 0 => Some script_generation
  | 1 => Some speech_synthesis
  | 2 => Some visual_generation
  | 3 => Some lipsync_processing
  | 4 => Some video_assembly
  | _ => None
  end.

(** Modelled from the spec: the stages of the missing Pipeline Graph can
    be counted, so that sets of stages are [gset]s. *)
#[global] Instance countable : Countable t.
Proof. apply (inj_countable index ofIndex). by intros []. Defined.

(** Modelled from the spec: all stages of the missing Pipeline Graph. *)
Definition all : list t :=
  [script_generation; speech_synthesis; visual_generation;
   lipsync_processing; video_assembly].

(** Modelled from the spec: the edges of the missing Pipeline Graph,
    "speech_synthesis and visual_generation both depend only on
    script_generation; lipsync_processing requires both to have
    succeeded; video_assembly requires lipsync_processing (and the
    visual output) to have succeeded". *)
Definition deps (s : t) : list t :=
  match s with
  | script_generation => []
  | speech_synthesis => [script_generation]
  | visual_generation => [script_generation]
  | lipsync_processing => [speech_synthesis; visual_generation]
  | video_assembly => [lipsync_processing; visual_generation]
  end.
End Stage.

Module Status.
(** Modelled from the spec: the eight values of the [status] of a Job
    (section 3); the server code that declares them is missing. *)
Inductive t :=
| created
| script_generating
| speech_synthesizing
| visual_generating
| lipsync_processing
| assembling
| completed
| failed.

(** Modelled from the spec: equality of the statuses of the missing Job
    Store is decidable. *)
#[global] Instance eq_dec : EqDecision t.
Proof. solve_decision. Defined.

(** Modelled from the spec: "Terminal status: completed or failed", of
    the missing Job Store. *)
Definition terminal (s : t) : bool :=
  match s with
  | completed | failed => true
  | _ => false
  end.

(** Modelled from the spec: the status as the missing server writes it
    in a job snapshot. *)
Definition toString (s : t) : string :=
  match s with
  | created => "created"
  | script_generating => "script_generating"
  | speech_synthesizing => "speech_synthesizing"
  | visual_generating => "visual_generating"
  | lipsync_processing => "lipsync_processing"
  | assembling => "assembling"
  | completed => "completed"
  | failed => "failed"
  end.

(** Modelled from the spec: the list of the statuses of the missing
    Job Store, in the order of section 3. *)
Definition all : list t :=
  [created; script_generating; speech_synthesizing; visual_generating;
   lipsync_processing; assembling; completed; failed].
End Status.

(** Modelled from the spec: "one status per in-flight stage" (section
    4.4) of the missing Orchestrator. *)
Definition inProgress (s : Stage.t) : Status.t :=
  match s with
  | Stage.script_generation => Status.script_generating
  | Stage.speech_synthesis => Status.speech_synthesizing
  | Stage.visual_generation => Status.visual_generating
  | Stage.lipsync_processing => Status.lipsync_processing
  | Stage.video_assembly => Status.assembling
  end.

(** Modelled from the spec: the [message] of a JobUpdate of the missing
    Job Store, "human-readable detail, e.g., stage name or error text",
    kept structured: which transition of which stage it records. *)
Inductive Message :=
| JobCreated
| StageStarted (s : Stage.t)
| StageCompleted (s : Stage.t) (summary : string)
| StageRetried (s : Stage.t)
| StageFailed (s : Stage.t) (reason : string)
| JobCompleted (video_url : string)
| InternalError (reason : string).

(** Modelled from the spec: the JobUpdate record of the missing Job
    Store (section 3). *)
Record JobUpdate := {
  id : nat;
  job_id : string;
  status : Status.t;
  message : Message;
  created_at : nat
}.

(** Modelled from the spec: the Job record of the missing Job Store
    (section 3). *)
Record Job := {
  j_job_id : string;
  j_status : Status.t;
  j_persona_id : string;
  j_query : string;
  j_created_at : nat;
  j_updated_at : nat;
  j_completed_at : option nat;
  j_result : option string;
  j_error : option string;
  j_video_url : option string;
  j_video_available : bool
}.

(** Modelled from the spec: the state of the execution unit that the
    missing Orchestrator runs for one job: the job and its update log
    (oldest first) in the Job Store, the set of completed stages, the
    set of stages launched, and the clock. *)
Record State := {
  job : Job;
  updates : list JobUpdate;
  completedSet : gset Stage.t;
  started : gset Stage.t;
  clock : nat
}.

(** Modelled from the spec: [ReadyStages] of the missing Pipeline Graph,
    "stages whose dependencies are all in completedSet and not yet
    started". *)
Definition ReadyStages (completedSet started : gset Stage.t) : list Stage.t :=
  List.filter
    (fun s => bool_decide (Forall (fun d => d ∈ completedSet) (Stage.deps s))
              && bool_decide (s ∉ started))
    Stage.all.

(** Modelled from the spec: [IsTerminal] of the missing Pipeline Graph,
    "all stages completed". *)
Definition IsTerminal (completedSet : gset Stage.t) : bool :=
  bool_decide (Forall (fun s => s ∈ completedSet) Stage.all).

(** Modelled from the spec: the stages launched and not yet completed,
    of the missing Orchestrator. *)
Definition inFlight (st : State) : gset Stage.t :=
  started st ∖ completedSet st.

(** Modelled from the spec: [Create] of the missing Job Store, "persists
    a Job in created status, appends an initial update". *)
Definition Create (job_id persona_id query : string) (now : nat) : State :=
  {| job := {| j_job_id := job_id; j_status := Status.created;
               j_persona_id := persona_id; j_query := query;
               j_created_at := now; j_updated_at := now;
               j_completed_at := None; j_result := None; j_error := None;
               j_video_url := None; j_video_available := false |};
     updates := [ {| id := 0; job_id := job_id; status := Status.created;
                     message := JobCreated; created_at := now |} ];
     completedSet := ∅; started := ∅; clock := S now |}.

(** Modelled from the spec: the [resultFields] argument of [Transition]
    of the missing Job Store; a field that is [None] is left as it is. *)
Record ResultFields := {
  rf_result : option string;
  rf_error : option string;
  rf_video_url : option string;
  rf_completed : bool
}.

(** Modelled from the spec: a [Transition] of the missing Job Store that
    changes no field but the status. *)
Definition noFields : ResultFields :=
  {| rf_result := None; rf_error := None; rf_video_url := None;
     rf_completed := false |}.

(** Modelled from the spec: [Transition] of the missing Job Store,
    "atomically updates the Job's status/fields and appends a JobUpdate
    in one unit". *)
Definition Transition (newStatus : Status.t) (msg : Message)
    (fields : ResultFields) (st : State) : State :=
  let now := clock st in
  let j := job st in
  {| job := {| j_job_id := j_job_id j; j_status := newStatus;
               j_persona_id := j_persona_id j; j_query := j_query j;
               j_created_at := j_created_at j; j_updated_at := now;
               j_completed_at :=
                 if rf_completed fields then Some now else j_completed_at j;
               j_result :=
                 match rf_result fields with Some r => Some r | None => j_result j end;
               j_error :=
                 match rf_error fields with Some e => Some e | None => j_error j end;
               j_video_url :=
                 match rf_video_url fields with
                 | Some u => Some u
                 | None => j_video_url j
                 end;
               j_video_available :=
                 match rf_video_url fields with
                 | Some _ => true
                 | None => j_video_available j
                 end |};
     updates := updates st
                ++ [ {| id := length (updates st); job_id := j_job_id j;
                        status := newStatus; message := msg; created_at := now |} ];
     completedSet := completedSet st; started := started st;
     clock := S now |}.

(** Modelled from the spec: [Finalize] of the missing Job Store,
    "terminal transition to completed or failed; rejects if already
    terminal (idempotent no-op, not an error, if the same terminal
    status is repeated)".  [None] is the rejection. *)
Definition Finalize (outcome : Status.t) (msg : Message)
    (fields : ResultFields) (st : State) : option State :=
  if Status.terminal (j_status (job st)) then
    if bool_decide (j_status (job st) = outcome) then Some st else None
  else if Status.terminal outcome then
    Some (Transition outcome msg
            {| rf_result := rf_result fields; rf_error := rf_error fields;
               rf_video_url := rf_video_url fields; rf_completed := true |} st)
  else None.

(** Modelled from the spec: the name of a stage as the missing
    Orchestrator writes it in an error message. *)
Definition stageName (s : Stage.t) : string :=
  match s with
  | Stage.script_generation => "script_generation"
  | Stage.speech_synthesis => "speech_synthesis"
  | Stage.visual_generation => "visual_generation"
  | Stage.lipsync_processing => "lipsync_processing"
  | Stage.video_assembly => "video_assembly"
  end.

(** Modelled from the spec: what can happen next to the execution unit
    of a job in the missing Orchestrator (section 4.4): a ready stage is
    launched (step 3); the Stage Invoker reports the success of a stage
    with its output (step 4), a retry, or its failure (step 6); all
    stages are done (step 7); nothing is ready, nothing runs and the job
    is not done (step 2). *)
Inductive Event :=
| Launch (s : Stage.t)
| Succeeded (s : Stage.t) (output : string)
| Retried (s : Stage.t)
| Failed (s : Stage.t) (reason : string)
| AllDone (video_url : string)
| Deadlock.

(** Modelled from the spec: the missing Orchestrator records that a
    stage was launched. *)
Definition withStarted (s : Stage.t) (st : State) : State :=
  {| job := job st; updates := updates st; completedSet := completedSet st;
     started := {[s]} ∪ started st; clock := clock st |}.

(** Modelled from the spec: "add the stage to completedSet", in the
    missing Orchestrator. *)
Definition withCompleted (s : Stage.t) (st : State) : State :=
  {| job := job st; updates := updates st;
     completedSet := {[s]} ∪ completedSet st;
     started := started st; clock := clock st |}.

(** Modelled from the spec: one step of the algorithm of the missing
    Orchestrator (section 4.4); [None] when the event cannot happen in
    the state.  A launch reports the in-progress status of the stage,
    unless another stage is running ("first of the concurrent pair to
    start determines the reported status; message field records which
    stage"); the other updates report the status the job has. *)
Definition step (st : State) (ev : Event) : option State :=
  if Status.terminal (j_status (job st)) then None
  else
    match ev with
    | Launch s =>
        if bool_decide (s ∈ ReadyStages (completedSet st) (started st)) then
          let newStatus :=
            if bool_decide (inFlight st = ∅) then inProgress s
            else j_status (job st) in
          Some (withStarted s (Transition newStatus (StageStarted s) noFields st))
        else None
    | Succeeded s output =>
        if bool_decide (s ∈ inFlight st) then
          Some (withCompleted s
                  (Transition (j_status (job st)) (StageCompleted s output)
                     {| rf_result :=
                          if bool_decide (s = Stage.script_generation)
                          then Some output else None;
                        rf_error := None; rf_video_url := None;
                        rf_completed := false |} st))
        else None
    | Retried s =>
        if bool_decide (s ∈ inFlight st) then
          Some (Transition (j_status (job st)) (StageRetried s) noFields st)
        else None
    | Failed s reason =>
        if bool_decide (s ∈ inFlight st) then
          Finalize Status.failed (StageFailed s reason)
            {| rf_result := None;
               rf_error := Some (stageName s ++ ": " ++ reason);
               rf_video_url := None; rf_completed := true |} st
        else None
    | AllDone video_url =>
        if IsTerminal (completedSet st) then
          Finalize Status.completed (JobCompleted video_url)
            {| rf_result := None; rf_error := None;
               rf_video_url := Some video_url; rf_completed := true |} st
        else None
    | Deadlock =>
        if bool_decide (ReadyStages (completedSet st) (started st) = [])
           && negb (IsTerminal (completedSet st))
           && bool_decide (inFlight st = ∅) then
          Finalize Status.failed (InternalError "deadlock")
            {| rf_result := None; rf_error := Some "internal error: deadlock";
               rf_video_url := None; rf_completed := true |} st
        else None
    end.

(** Modelled from the spec: a run of the missing Orchestrator on one
    job, the events taken in order; [None] when one of them cannot
    happen. *)
Fixpoint run (st : State) (evs : list Event) : option State :=
  match evs with
  | [] => Some st
  | ev :: evs' =>
      match step st ev with
      | Some st' => run st' evs'
      | None => None
      end
  end.

(** Modelled from the spec: "a successful completion update" of a stage,
    in the update log of the missing Job Store. *)
Definition isCompletionOf (s : Stage.t) (u : JobUpdate) : bool :=
  match message u with
  | StageCompleted s' _ => bool_decide (s' = s)
  | _ => false
  end.

(** Modelled from the spec: a stage "has a successful completion update"
    in a part of the update log of the missing Job Store. *)
Definition completionIn (s : Stage.t) (log : list JobUpdate) : bool :=
  existsb (isCompletionOf s) log.

(** Modelled from the spec: what the execution unit of the missing
    Orchestrator maintains: every update that reports
    [lipsync_processing] comes after a completion update of
    [speech_synthesis] and one of [visual_generation]; the job reports
    [lipsync_processing] only when both stages are completed; and every
    completed stage has its completion update in the log. *)
Record Inv (st : State) : Prop := {
  inv_log :
    forall pre u post,
      updates st = (pre ++ u :: post)%list ->
      status u = Status.lipsync_processing ->
      completionIn Stage.speech_synthesis pre = true
      /\ completionIn Stage.visual_generation pre = true;
  inv_status :
    j_status (job st) = Status.lipsync_processing ->
    Stage.speech_synthesis ∈ completedSet st
    /\ Stage.visual_generation ∈ completedSet st;
  inv_completed :
    forall s, s ∈ completedSet st -> completionIn s (updates st) = true
}.
End Orchestrator.


(** ** The status reader of the server *)
Module StatusReader.
Import Orchestrator.

(** Modelled from the spec: how the missing server writes the time of a
    record of the Job Store in a job snapshot. *)
Definition timestamp (t : nat) : string := Js.numberToString t.

(** Modelled from the spec: the [message] of a JobUpdate as the missing
    server writes it, "human-readable detail, e.g., stage name or error
    text". *)
Definition messageText (m : Message) : string :=
  match m with
  | JobCreated => "Job created"
  | StageStarted s => stageName s ++ " started"
  | StageCompleted s summary => stageName s ++ " completed: " ++ summary
  | StageRetried s => stageName s ++ " retried"
  | StageFailed s reason => stageName s ++ " failed: " ++ reason
  | JobCompleted video_url => "Job completed: " ++ video_url
  | InternalError reason => "Internal error: " ++ reason
  end.

(** Modelled from the spec: a JobUpdate of the missing Job Store as the
    entry of [updates] in the response to [GetJob] (section 6). *)
Definition updateOf (u : JobUpdate) : Api.JobUpdate.t :=
  {| Api.JobUpdate.id := Z.of_nat (id u);
     Api.JobUpdate.job_id := job_id u;
     Api.JobUpdate.status := Status.toString (status u);
     Api.JobUpdate.message := messageText (message u);
     Api.JobUpdate.created_at := timestamp (created_at u) |}.

(** Modelled from the spec: [GetStatus] of the missing Status Reader
    (section 4.5), the current snapshot of the job with its full update
    history, in the shape of section 6: "JobSnapshot fields: job_id,
    status, created_at, updated_at, completed_at (nullable), error
    (nullable), result (nullable), persona_id, query, video_available
    (bool), video_url (nullable)". *)
Definition GetStatus (st : State) : Api.FetchedJobData :=
  let j := job st in
  {| Api.job :=
       {| Api.JobDetails.job_id := j_job_id j;
          Api.JobDetails.status := Status.toString (j_status j);
          Api.JobDetails.created_at := timestamp (j_created_at j);
          Api.JobDetails.updated_at := Some (timestamp (j_updated_at j));
          Api.JobDetails.completed_at := timestamp <$> j_completed_at j;
          Api.JobDetails.error := j_error j;
          Api.JobDetails.result := j_result j;
          Api.JobDetails.persona_id := Some (j_persona_id j);
          Api.JobDetails.query := Some (j_query j);
          Api.JobDetails.video_available := Some (j_video_available j);
          Api.JobDetails.video_url := j_video_url j |};
     Api.updates := map updateOf (updates st) |}.

(** Modelled from the spec: what can come back to a client that asks the
    missing server for a job: the request fails; the response is not OK
    ("fails with NotFound if job_id unknown"); the body of an OK response
    does not reach the client as JSON; or the job is known, and is in
    the state that some run of the orchestrator left it in. *)
Inductive Answer :=
| Unreachable (e : Api.Thrown)
| NotOk (status : nat) (body : Api.FetchedJobData + string)
| Garbled (msg : string)
| Found (job_id persona_id query : string) (now : nat) (evs : list Event).

(** Modelled from the spec: the response of the missing server for an
    answer; a job whose events cannot have happened is not known. *)
Definition respond (a : Answer) : Api.FetchResult Api.FetchedJobData :=
  match a with
  | Unreachable e => Api.NetworkFailure e
  | NotOk status body => Api.Response false status body
  | Garbled msg => Api.Response true 200 (inr msg)
  | Found job_id persona_id query now evs =>
      match run (Create job_id persona_id query now) evs with
      | Some st => Api.Response true 200 (inl (GetStatus st))
      | None => Api.Response false 404 (inr "Job not found")
      end
  end.
End StatusReader.

(** ** A session of the job provider

    What happens to one [JobProvider] over time: its callbacks are
    called, by any render that has been, the requests they sent settle
    with the answers of the server, in any order, and the context is
    cleared or prepared for a new job. *)
Module Session.
Import Api.

Inductive Op :=
| Call (render : nat) (now : Z) (nowIso jobId : string)
| Settle (jobId : string) (a : StatusReader.Answer)
| Clear
| Submit (query personaId : string) (r : FetchResult CreateBody).

(** The provider in the course of a session: its references and state,
    the [jobData] that each render so far has seen (oldest first), the
    jobs with a request under way, and the snapshots that [fetchJobById]
    has handed to its callers (oldest first). *)
Record Trace := {
  t_refs : JobContext.Refs;
  t_ctx : JobContext.State;
  t_renders : list (option FetchedJobData);
  t_pending : gset string;
  t_returned : list FetchedJobData
}.

Definition start : Trace :=
  {| t_refs := JobContext.initialRefs;
     t_ctx := JobContext.initialState;
     t_renders := [JobContext.jobData JobContext.initialState];
     t_pending := ∅;
     t_returned := [] |}.

(** The [jobData] that the callbacks of render [k] captured; a render
    that has not been yet stands for the latest one. *)
Definition captured (k : nat) (t : Trace) : option FetchedJobData :=
  default (JobContext.jobData (t_ctx t)) (t_renders t !! k).

(** The provider renders again with a new state. *)
Definition render (ctx : JobContext.State) (t : Trace) : Trace :=
  {| t_refs := t_refs t; t_ctx := ctx;
     t_renders := (t_renders t ++ [JobContext.jobData ctx])%list;
     t_pending := t_pending t; t_returned := t_returned t |}.

Section WithEnv.
Variable NEXT_PUBLIC_API_BASE_URL : option string.

Definition step (t : Trace) (op : Op) : Trace :=
  match op with
  | Call k now nowIso jobId =>
      match JobContext.fetchJobById_begin NEXT_PUBLIC_API_BASE_URL
              (captured k t) now nowIso jobId (t_refs t) (t_ctx t) with
      | JobContext.Immediate d =>
          {| t_refs := t_refs t; t_ctx := t_ctx t; t_renders := t_renders t;
             t_pending := t_pending t;
             t_returned := (t_returned t ++ [d])%list |}
      | JobContext.Awaiting refs1 st1 _ =>
          render st1
            {| t_refs := refs1; t_ctx := t_ctx t; t_renders := t_renders t;
               t_pending := {[jobId]} ∪ t_pending t;
               t_returned := t_returned t |}
      end
  | Settle jobId a =>
      if bool_decide (jobId ∈ t_pending t) then
        let '(refs2, st2, p) :=
          JobContext.fetchJobById_settle jobId (StatusReader.respond a)
            (t_refs t) (t_ctx t) in
        render st2
          {| t_refs := refs2; t_ctx := t_ctx t; t_renders := t_renders t;
             t_pending := t_pending t ∖ {[jobId]};
             t_returned :=
               (t_returned t
                ++ match p with Resolved d => [d] | Rejected _ => [] end)%list |}
      else t
  | Clear => render (JobContext.clearJob (t_ctx t)) t
  | Submit query personaId r =>
      let '(st1, _) :=
        JobContext.createNewJob_begin NEXT_PUBLIC_API_BASE_URL query personaId
          (t_ctx t) in
      let '(st2, _) := JobContext.createNewJob_settle r st1 in
      render st2 (render st1 t)
  end.

Definition run (ops : list Op) : Trace := fold_left step ops start.
End WithEnv.



(** The references hold keys of their own only for job ids that the
    prototype does not provide, a time of last request for every job
    that has an in-flight mark, and the mark set for every job with a
    request under way. *)
Definition ownKeys (t : Trace) : Prop :=
  (forall k, is_Some (JobContext.isFetching (t_refs t) !! k) ->
             Js.inherited k = false
             /\ is_Some (JobContext.lastFetchTime (t_refs t) !! k))
  /\ (forall k, k ∈ t_pending t ->
                JobContext.isFetching (t_refs t) !! k = Some true).
End Session.

(** ** Sample data *)
Module Samples.
Import Api.

(** The response of the backend for a job with the given id, status,
    error, availability flag and video path. *)
Definition snapshot (jobId status : string) (error : option string)
    (available : option bool) (video_url : option string) : FetchedJobData :=
  {| job := {| JobDetails.job_id := jobId;
               JobDetails.status := status;
               JobDetails.created_at := "2025-05-01T10:00:00Z";
               JobDetails.updated_at := Some "2025-05-01T10:04:00Z";
               JobDetails.completed_at := None;
               JobDetails.error := error;
               JobDetails.result := Some "Gravity pulls.";
               JobDetails.persona_id := Some "p1";
               JobDetails.query := Some "explain gravity";
               JobDetails.video_available := available;
               JobDetails.video_url := video_url |};
     updates := [ {| JobUpdate.id := 1; JobUpdate.job_id := jobId;
                     JobUpdate.status := status;
                     JobUpdate.message := "Job " ++ status;
                     JobUpdate.created_at := "2025-05-01T10:04:00Z" |} ] |}.

(** A job context that holds the snapshot [d] and is neither loading nor
    in error. *)
Definition holding (d : FetchedJobData) : JobContext.State :=
  {| JobContext.jobData := Some d;
     JobContext.loading := false;
     JobContext.error := None |}.

(** A run of the orchestrator in which the five stages succeed, the
    visual stage being launched before the speech stage and finishing
    after it. *)
Definition fullRun : list Orchestrator.Event :=
  [Orchestrator.Launch Orchestrator.Stage.script_generation;
   Orchestrator.Succeeded Orchestrator.Stage.script_generation "Gravity pulls.";
   Orchestrator.Launch Orchestrator.Stage.visual_generation;
   Orchestrator.Launch Orchestrator.Stage.speech_synthesis;
   Orchestrator.Succeeded Orchestrator.Stage.speech_synthesis "speech.wav";
   Orchestrator.Succeeded Orchestrator.Stage.visual_generation "visuals.mp4";
   Orchestrator.Launch Orchestrator.Stage.lipsync_processing;
   Orchestrator.Succeeded Orchestrator.Stage.lipsync_processing "lipsync.mp4";
   Orchestrator.Launch Orchestrator.Stage.video_assembly;
   Orchestrator.Succeeded Orchestrator.Stage.video_assembly "final.mp4";
   Orchestrator.AllDone "/api/videos/job-1"].

Definition submitted : Orchestrator.State :=
  Orchestrator.Create "job-1" "p1" "explain gravity" 0.

(** The state the run ends in. *)
Definition finalState : Orchestrator.State :=
  default submitted (Orchestrator.run submitted fullRun).
End Samples.



(** * Properties *)

(** ** Strings *)
Section JsProperties.

Lemma trimStart_whitespaceOnly s :
  Js.whitespaceOnly s = true -> Js.trimStart s = "".
Proof.
  induction s as [|c r IH]; cbn; [done|].
  intros [Hc Hr]%andb_true_iff. rewrite Hc. auto.
Qed.

Lemma trimStart_empty s :
  Js.trimStart s = "" -> Js.whitespaceOnly s = true.
Proof.
  induction s as [|c r IH]; cbn; [done|].
  destruct (Js.isWhiteSpace c); cbn; [auto | discriminate].
Qed.

Lemma trimStart_head s c r :
  Js.trimStart s = String c r -> Js.isWhiteSpace c = false.
Proof.
  induction s as [|a s' IH]; cbn; [discriminate|].
  destruct (Js.isWhiteSpace a) eqn:Ha; [auto|].
  intros [= <- _]. exact Ha.
Qed.

Lemma trimEnd_head c r :
  Js.isWhiteSpace c = false -> Js.trimEnd (String c r) <> "".
Proof.
  intros Hc. cbn. destruct (Js.trimEnd r); [rewrite Hc|]; discriminate.
Qed.

(** [trim] yields the empty string on the white-space-only strings and
    on no other. *)
Lemma trim_empty_iff s :
  Js.trim s = "" <-> Js.whitespaceOnly s = true.
Proof.
  unfold Js.trim. split.
  - destruct (Js.trimStart s) as [|c r] eqn:E.
    + intros _. by apply trimStart_empty.
    + intros H. by apply trimEnd_head in H; [|eapply trimStart_head].
  - intros H. by rewrite trimStart_whitespaceOnly.
Qed.

Lemma truthy_false_iff s : Js.truthy s = false <-> s = "".
Proof.
  unfold Js.truthy. destruct (String.eqb_spec s ""); cbn; split; congruence.
Qed.

Lemma seq_true_iff s t : Js.seq s t = true <-> s = t.
Proof. apply String.eqb_eq. Qed.

Lemma seq_refl s : Js.seq s s = true.
Proof. apply String.eqb_refl. Qed.
End JsProperties.

(** ** The API functions *)
Section ApiProperties.
Import Api.

(** C5 (as stated, refuted): a response can be successful and still
    yield no data: when the body of an OK response does not parse as
    JSON, [getJobStatus] raises the parse error and returns no pair. *)
Lemma getJobStatus_ok_unparsable_counterexample :
  getJobStatus (Response true 200 (inr "Unexpected token < in JSON at position 0"))
  = Rejected (Error "Unexpected token < in JSON at position 0")
  /\ forall d,
      getJobStatus (Response true 200 (inr "Unexpected token < in JSON at position 0"))
      <> Resolved d.
Proof. split; [reflexivity | discriminate]. Qed.

(** C5 (amended): [getJobStatus] raises an error and returns no data on
    every response that is not OK (an unknown job among them), naming the
    status code, and when the request itself fails; on an OK response
    whose body parses it returns the parsed body, the pair of the job
    snapshot and its update list, unchanged; on an OK response whose body
    does not parse it raises the parse error. *)
Theorem getJobStatus_outcomes :
  (forall status j,
      getJobStatus (Response false status j)
      = Rejected (Error ("Failed to fetch job status: " ++ Js.numberToString status)))
  /\ (forall status j d, getJobStatus (Response false status j) <> Resolved d)
  /\ (forall e, getJobStatus (NetworkFailure e) = Rejected e)
  /\ (forall status jobDetails jobUpdates,
        getJobStatus
          (Response true status (inl {| job := jobDetails; updates := jobUpdates |}))
        = Resolved {| job := jobDetails; updates := jobUpdates |})
  /\ (forall status msg,
        getJobStatus (Response true status (inr msg)) = Rejected (Error msg)).
Proof.
  repeat split; intros; cbn; congruence.
Qed.

Example getJobStatus_404 :
  getJobStatus (Response false 404 (inr "Unexpected token"))
  = Rejected (Error "Failed to fetch job status: 404").
Proof. reflexivity. Qed.

(** C10: [getJobWithUpdates] and [getJobStatus] send the same request
    and return the same value on success: on an OK response whose body
    parses both return the parsed body unchanged.  When the body of an OK
    response does not parse both raise the same parse error, when the
    request fails both raise the same failure, and on a response that is
    not OK both raise an error that names the status code, the two
    differing in the text before it only. *)
Theorem getJobWithUpdates_agrees_with_getJobStatus :
  (forall env jobId,
      getJobWithUpdates_request env jobId = getJobStatus_request env jobId)
  /\ (forall status d,
        getJobStatus (Response true status (inl d)) = Resolved d
        /\ getJobWithUpdates (Response true status (inl d)) = Resolved d)
  /\ (forall status msg,
        getJobStatus (Response true status (inr msg)) = Rejected (Error msg)
        /\ getJobWithUpdates (Response true status (inr msg)) = Rejected (Error msg))
  /\ (forall e,
        getJobStatus (NetworkFailure e) = Rejected e
        /\ getJobWithUpdates (NetworkFailure e) = Rejected e)
  /\ (forall status j,
        getJobStatus (Response false status j)
        = Rejected (Error ("Failed to fetch job status: " ++ Js.numberToString status))
        /\ getJobWithUpdates (Response false status j)
           = Rejected (Error ("Failed to fetch job with updates: "
                              ++ Js.numberToString status))).
Proof. repeat split. Qed.
End ApiProperties.

(** ** Submission from the dashboard *)
Section DashboardProperties.
Import Api Dashboard.

(** C3: a click on the button with an empty or white-space-only topic,
    or with no persona selected, does nothing at all: no request to
    create a job is sent whatever the backend would answer, no route is
    pushed, and the page and the job context stay as they were. *)
Theorem handleGenerate_rejects_invalid_submission :
  forall env (r : FetchResult CreateBody) (p : State) (ctx : JobContext.State),
    Js.whitespaceOnly (topic p) = true \/ selectedCelebrity p = None ->
    handleGenerate env r p ctx
    = {| o_page := p; o_ctx := ctx; o_requests := []; o_pushed := None |}.
Proof.
  intros env r p ctx H. unfold handleGenerate, handleGenerate_begin.
  destruct (selectedCelebrity p) as [celebrity|]; [|done].
  destruct H as [H | H]; [|done].
  apply trim_empty_iff, truthy_false_iff in H. by rewrite H.
Qed.

Lemma handleGenerate_rejects_invalid_submission_witness :
  handleGenerate None (Response true 201
      (inl {| cb_job_id := Some "job-1"; cb_status := Some "created";
              cb_error := None |}))
    {| selectedCelebrity := Some {| id := "p1"; name := "P"; image := "p.png" |};
       topic := "  " ++ String (ascii_of_nat 9) "";
       isSubmitting := false; loadError := None |}
    JobContext.initialState
  = {| o_page :=
         {| selectedCelebrity := Some {| id := "p1"; name := "P"; image := "p.png" |};
            topic := "  " ++ String (ascii_of_nat 9) "";
            isSubmitting := false; loadError := None |};
       o_ctx := JobContext.initialState; o_requests := []; o_pushed := None |}.
Proof.
  apply (handleGenerate_rejects_invalid_submission None). left. reflexivity.
Defined.

(** The guard rejects nothing else but a click during a submission: a
    valid submission sends one POST with the trimmed topic and the id of
    the persona. *)
Lemma handleGenerate_sends_valid_submission :
  forall env (r : FetchResult CreateBody) (p : State) (ctx : JobContext.State) c,
    selectedCelebrity p = Some c ->
    Js.whitespaceOnly (topic p) = false ->
    isSubmitting p = false ->
    o_requests (handleGenerate env r p ctx)
    = [createJob_request env (Js.trim (topic p)) (id c)].
Proof.
  intros env r p ctx c Hc Hw Hs. unfold handleGenerate, handleGenerate_begin.
  rewrite Hc, Hs.
  destruct (Js.truthy (Js.trim (topic p))) eqn:Ht.
  - cbn. by destruct (handleGenerate_settle _ _ _) as [[? ?] ?].
  - apply truthy_false_iff, trim_empty_iff in Ht. congruence.
Qed.
End DashboardProperties.

(** ** The job context *)
Section JobContextProperties.
Import Api JobContext.

Lemma fetching_setFetching jobId b refs :
  fetching (setFetching jobId b refs) jobId = b.
Proof. unfold fetching, setFetching; cbn. by rewrite lookup_insert_eq. Qed.

Lemma lastFetch_setLastFetchTime jobId t refs :
  lastFetch (setLastFetchTime jobId t refs) jobId = t.
Proof. unfold lastFetch, setLastFetchTime; cbn. by rewrite lookup_insert_eq. Qed.

(** A call that goes to the network stamps [lastFetchTime] with its
    [now]; no other call touches it. *)
Lemma fetchJobById_begin_awaiting env cj now nowIso jobId refs st refs1 st1 req :
  fetchJobById_begin env cj now nowIso jobId refs st = Awaiting refs1 st1 req ->
  refs1 = setLastFetchTime jobId now (setFetching jobId true refs)
  /\ st1 = setLoading true st
  /\ req = getJobStatus_request env jobId.
Proof.
  unfold fetchJobById_begin.
  destruct (fetching refs jobId); [discriminate|].
  destruct cj as [d|]; [destruct (_ && _); [discriminate|]|];
    by intros [= <- <- <-].
Qed.


(** C9 (as stated, refuted).  First: the third of three calls for a job
    comes 200 ms after the second, the cached data is for that job, and
    it still goes to the network, because the second call was answered
    from the cache and the three seconds count from the first.  Second:
    a call one second after a fetch that failed returns the data cached
    before, which is not the result of that fetch. *)
Lemma fetchJobById_window_counterexample :
  let d := {| job := (job (pendingJob "job-1" "2025-05-01T10:00:00Z"));
              updates := [] |} in
  let ok := Response true 200 (inl d) in
  let '(refs1, st1, _, sent1) :=
    fetchJobById None 10000 "" "job-1" ok initialRefs initialState in
  let '(refs2, st2, _, sent2) := fetchJobById None 12900 "" "job-1" ok refs1 st1 in
  let '(_, _, _, sent3) := fetchJobById None 13100 "" "job-1" ok refs2 st2 in
  let '(refs4, st4, p4, sent4) :=
    fetchJobById None 20000 "" "job-1" (NetworkFailure (Error "Failed to fetch"))
      refs2 st2 in
  let '(_, _, p5, sent5) := fetchJobById None 21000 "" "job-1" ok refs4 st4 in
  ((13100 - 12900 < 3000)%Z
   /\ jobData st2 = Some d
   /\ JobDetails.job_id (job d) = "job-1"
   /\ sent2 = []
   /\ sent3 = [getJobStatus_request None "job-1"])
  /\ ((21000 - 20000 < 3000)%Z
      /\ jobData st4 = Some d
      /\ sent4 = [getJobStatus_request None "job-1"]
      /\ p4 = Rejected (Error "Failed to fetch")
      /\ sent5 = []
      /\ p5 = Resolved d).
Proof. vm_compute. repeat split. Qed.

(** C9 (amended): a call of [fetchJobById] made less than three seconds
    after the last call for that job that went to the network, while
    the cached data is for that job, returns the cached data, sends no
    request and changes nothing, so that repeating it gives the same
    again; and when the references and the state are those left by a
    fetch that succeeded, the cached data is the result of that fetch
    and the three seconds count from it. *)
Theorem fetchJobById_cached_within_window :
  forall env now nowIso jobId r refs st d,
    jobData st = Some d ->
    JobDetails.job_id (job d) = jobId ->
    (now - lastFetch refs jobId < 3000)%Z ->
    fetchJobById env now nowIso jobId r refs st = (refs, st, Resolved d, [])
    /\ (forall t0 iso0 r0 refs0 st0 d0 req,
          fetchJobById env t0 iso0 jobId r0 refs0 st0
          = (refs, st, Resolved d0, [req]) ->
          d0 = d /\ lastFetch refs jobId = t0).
Proof.
  intros env now nowIso jobId r refs st d Hd Hid Hlt. split.
  - unfold fetchJobById, fetchJobById_begin. rewrite Hd.
    destruct (fetching refs jobId); [done|].
    apply Z.ltb_lt in Hlt. rewrite Hlt, Hid, seq_refl. done.
  - intros t0 iso0 r0 refs0 st0 d0 req. unfold fetchJobById.
    destruct (fetchJobById_begin _ _ _ _ _ _ _) as [a|refs1 st1 req1] eqn:E;
      [discriminate|].
    apply fetchJobById_begin_awaiting in E as (-> & -> & ->).
    unfold fetchJobById_settle.
    destruct (getJobStatus r0) as [fetched|err]; intros [= <- <- <- _].
    cbn in Hd. split; [congruence|].
    unfold lastFetch, setFetching, setLastFetchTime; cbn.
    by rewrite lookup_insert_eq.
Qed.

Lemma fetchJobById_cached_within_window_witness :
  let d := {| job := (job (pendingJob "job-1" "2025-05-01T10:00:00Z"));
              updates := [] |} in
  let refs := setFetching "job-1" false
                (setLastFetchTime "job-1" 10000%Z
                   (setFetching "job-1" true initialRefs)) in
  let st := setLoading false (setError None
              (setJobData (Some d) (setLoading true initialState))) in
  (12900 - lastFetch refs "job-1" < 3000)%Z
  /\ fetchJobById None 12900 "" "job-1" (NetworkFailure NonError) refs st
     = (refs, st, Resolved d, []).
Proof.
  intros d refs st. split; [vm_compute; reflexivity|].
  apply (fetchJobById_cached_within_window None 12900 "" "job-1"
           (NetworkFailure NonError) refs st d);
    [reflexivity | reflexivity | vm_compute; reflexivity].
Defined.
End JobContextProperties.

(** ** Sessions of the job provider *)
Section SessionProperties.
Import Api Session.









(** A session in which the placeholder is handed out and a served
    snapshot is stored: the page is mounted twice in a row, as under
    React's strict mode, and then the first fetch settles. *)
Example session_strict_mode :
  let t := run None
             [Call 0 1000 "t0" "job-1"; Call 0 1001 "t1" "job-1";
              Settle "job-1"
                (StatusReader.Found "job-1" "p1" "explain gravity" 0
                   [Orchestrator.Launch Orchestrator.Stage.script_generation])] in
  (JobDetails.status <$> (job <$> t_returned t)) = ["pending"; "script_generating"]
  /\ (JobDetails.status <$> (job <$> JobContext.jobData (t_ctx t)))
     = Some "script_generating".
Proof. vm_compute. by split. Qed.

Lemma ownKeys_render ctx t : ownKeys t -> ownKeys (render ctx t).
Proof. done. Qed.

(** In every session the references keep keys of their own for job ids
    that the prototype does not provide only, and a time of last request
    beside every in-flight mark: the members inherited from the
    prototype are never read as a time. *)
Lemma session_own_keys env ops : ownKeys (run env ops).
Proof.
  unfold run. assert (H : ownKeys start).
  { split; [intros k [b Hb]; cbn in Hb; by rewrite lookup_empty in Hb|].
    intros k Hk. cbn in Hk. set_solver. }
  revert H. generalize start. induction ops as [|op ops IH]; intros t Ht; cbn; [done|].
  apply IH. clear IH. destruct Ht as [Hown Hpend].
  destruct op as [k now nowIso jobId | jobId a | | query personaId r]; cbn.
  - destruct (JobContext.fetchJobById_begin _ _ _ _ _ _ _) as [d|refs1 st1 req] eqn:E;
      [done|].
    assert (Hf : JobContext.fetching (t_refs t) jobId = false).
    { unfold JobContext.fetchJobById_begin in E.
      by destruct (JobContext.fetching (t_refs t) jobId). }
    apply fetchJobById_begin_awaiting in E as (-> & -> & ->).
    apply ownKeys_render. split; cbn.
    + intros k'. destruct (decide (k' = jobId)) as [->|Hne].
      * intros _. rewrite lookup_insert_eq. split; [|eauto].
        unfold JobContext.fetching in Hf.
        destruct (JobContext.isFetching (t_refs t) !! jobId) eqn:E; [|done].
        by apply Hown.
      * rewrite !lookup_insert_ne by done. apply Hown.
    + intros k' [->%elem_of_singleton | Hk]%elem_of_union.
      * by rewrite lookup_insert_eq.
      * destruct (decide (k' = jobId)) as [->|Hne].
        -- by rewrite lookup_insert_eq.
        -- rewrite lookup_insert_ne by done. by apply Hpend.
  - case_bool_decide as Hp; [|done].
    unfold JobContext.fetchJobById_settle.
    assert (Hkey : is_Some (JobContext.isFetching (t_refs t) !! jobId))
      by (rewrite (Hpend _ Hp); eauto).
    destruct (getJobStatus _); apply ownKeys_render; split; cbn;
      try (intros k'; destruct (decide (k' = jobId)) as [->|Hne];
           [intros _; by apply Hown
           | rewrite lookup_insert_ne by done; apply Hown]);
      intros k' [Hk Hne%not_elem_of_singleton]%elem_of_difference;
      rewrite lookup_insert_ne by done; by apply Hpend.
  - done.
  - destruct (JobContext.createNewJob_settle _ _) as [st2 pr]. done.
Qed.
End SessionProperties.

(** ** The result view *)
Section ViewProperties.
Import Api View.
Variable toLocaleTimeString : string -> string.

Lemma hasTag_video_getStatusIcon status :
  hasTag "video" (getStatusIcon status) = false.
Proof.
  unfold getStatusIcon.
  repeat match goal with |- context [if ?b then _ else _] => destruct b end;
    reflexivity.
Qed.

Lemma hasTag_video_JobIdDisplay id :
  existsb (hasTag "video") (JobIdDisplay id) = false.
Proof. unfold JobIdDisplay. by destruct (negb _). Qed.

Lemma hasTag_video_updateRow u :
  hasTag "video" (updateRow toLocaleTimeString u) = false.
Proof.
  unfold updateRow. cbn. rewrite hasTag_video_getStatusIcon.
  by destruct (Js.truthy _).
Qed.

Lemma hasTag_video_UpdatesTimeline updates title :
  existsb (hasTag "video") (UpdatesTimeline toLocaleTimeString updates title) = false.
Proof.
  unfold UpdatesTimeline. destruct updates as [|u us]; [done|].
  cbn -[updateRow]. rewrite hasTag_video_updateRow. cbn -[updateRow].
  induction us as [|u' us IH]; [done|].
  cbn -[updateRow]. rewrite hasTag_video_updateRow. cbn -[updateRow].
  destruct (existsb _ _); [discriminate IH | done].
Qed.

Lemma textAfter_getStatusIcon label status :
  textAfter label (getStatusIcon status) = [].
Proof.
  unfold getStatusIcon.
  repeat match goal with |- context [if ?b then _ else _] => destruct b end;
    reflexivity.
Qed.

Lemma textAfter_JobIdDisplay label id :
  flat_map (textAfter label) (JobIdDisplay id) = [].
Proof. unfold JobIdDisplay. by destruct (negb _). Qed.

Lemma textAfter_updateRow label u :
  textAfter label (updateRow toLocaleTimeString u) = [].
Proof.
  unfold updateRow. cbn. rewrite textAfter_getStatusIcon.
  destruct (getStatusIcon _); by destruct (Js.truthy _).
Qed.

Lemma textAfter_rows label us :
  flat_map (textAfter label) (map (updateRow toLocaleTimeString) us) = [].
Proof.
  induction us as [|u us IH]; [done|].
  cbn -[updateRow]. by rewrite textAfter_updateRow, IH.
Qed.

Lemma textAfter_UpdatesTimeline label updates title :
  flat_map (textAfter label) (UpdatesTimeline toLocaleTimeString updates title) = [].
Proof.
  unfold UpdatesTimeline. destruct updates as [|u us]; [done|].
  cbn -[updateRow map]. by rewrite textAfter_rows.
Qed.

(** A snapshot whose status is ["failed"] is rendered by [FailedView],
    whatever the rest of the context. *)
Lemma JobResult_failed st currentJobId d :
  JobContext.jobData st = Some d ->
  JobDetails.status (job d) = "failed" ->
  JobResult toLocaleTimeString st currentJobId
  = FailedView toLocaleTimeString (job d) (updates d).
Proof. intros Hd Hs. unfold JobResult. by rewrite Hd, Hs. Qed.

Lemma JobResult_completed st currentJobId d :
  JobContext.jobData st = Some d ->
  JobDetails.status (job d) = "completed" ->
  JobResult toLocaleTimeString st currentJobId
  = CompletedView toLocaleTimeString (job d) (updates d).
Proof. intros Hd Hs. unfold JobResult. by rewrite Hd, Hs. Qed.

Lemma FailedView_no_video jobDetails jobUpdates :
  existsb (hasTag "video") (FailedView toLocaleTimeString jobDetails jobUpdates) = false.
Proof.
  unfold FailedView. cbn -[JobIdDisplay UpdatesTimeline].
  rewrite existsb_app, hasTag_video_JobIdDisplay, hasTag_video_UpdatesTimeline.
  reflexivity.
Qed.

Lemma FailedView_reason jobDetails jobUpdates :
  flat_map (textAfter "Reason: ") (FailedView toLocaleTimeString jobDetails jobUpdates)
  = [Js.or_else (JobDetails.error jobDetails) "Unknown error occurred"].
Proof.
  unfold FailedView. cbn -[JobIdDisplay UpdatesTimeline Js.or_else].
  rewrite flat_map_app, textAfter_JobIdDisplay, textAfter_UpdatesTimeline.
  reflexivity.
Qed.

(** C2 (amended): for a snapshot whose status is ["failed"] the result
    view is the failure view; it contains no video element; and after
    ["Reason: "] it shows the [error] of the job when that is a
    non-empty string, and the fixed text ["Unknown error occurred"] when
    [error] is null or empty. *)
Theorem JobResult_failed_shows_error_and_no_video :
  forall st currentJobId d,
    JobContext.jobData st = Some d ->
    JobDetails.status (job d) = "failed" ->
    let v := JobResult toLocaleTimeString st currentJobId in
    v = FailedView toLocaleTimeString (job d) (updates d)
    /\ existsb (hasTag "video") v = false
    /\ (forall e, JobDetails.error (job d) = Some e -> e <> "" ->
                  flat_map (textAfter "Reason: ") v = [e])
    /\ (JobDetails.error (job d) = None \/ JobDetails.error (job d) = Some "" ->
        flat_map (textAfter "Reason: ") v = ["Unknown error occurred"]).
Proof.
  intros st currentJobId d Hd Hs v. subst v.
  rewrite (JobResult_failed _ _ _ Hd Hs).
  rewrite FailedView_no_video, FailedView_reason.
  repeat split.
  - intros e -> He. cbn.
    destruct (Js.truthy e) eqn:Ht; [done|].
    by apply truthy_false_iff in Ht.
  - by intros [-> | ->].
Qed.

Lemma hasText_placeholder :
  hasText "Video is not available for this explanation." VideoPlaceholder = true.
Proof. reflexivity. Qed.

Lemma absoluteVideoUrl_truthy jobDetails :
  Js.truthy_opt (absoluteVideoUrl jobDetails) = true
  <-> exists u, JobDetails.video_url jobDetails = Some u /\ u <> "".
Proof.
  unfold absoluteVideoUrl.
  destruct (JobDetails.video_url jobDetails) as [u|]; cbn.
  - destruct (Js.truthy u) eqn:Ht; cbn; split.
    + intros _. exists u. split; [done|]. intros ->. discriminate Ht.
    + done.
    + discriminate.
    + intros (u' & [= <-] & Hne). by apply truthy_false_iff in Ht.
  - split; [discriminate | by intros (u & ? & _)].
Qed.

Lemma CompletedView_video jobDetails jobUpdates :
  existsb (hasTag "video") (CompletedView toLocaleTimeString jobDetails jobUpdates)
  = default false (JobDetails.video_available jobDetails)
    && Js.truthy_opt (absoluteVideoUrl jobDetails).
Proof.
  unfold CompletedView.
  cbn -[JobIdDisplay UpdatesTimeline absoluteVideoUrl Js.truthy_opt].
  rewrite !existsb_app, hasTag_video_JobIdDisplay, hasTag_video_UpdatesTimeline.
  destruct (default false _ && Js.truthy_opt _);
    cbn; by destruct (Js.truthy_opt (JobDetails.result jobDetails)).
Qed.

Lemma CompletedView_placeholder jobDetails jobUpdates :
  existsb (hasTag "video") (CompletedView toLocaleTimeString jobDetails jobUpdates)
  = false ->
  existsb (hasText "Video is not available for this explanation.")
    (CompletedView toLocaleTimeString jobDetails jobUpdates) = true.
Proof.
  rewrite CompletedView_video. intros H. unfold CompletedView. rewrite H.
  reflexivity.
Qed.

(** C8 (amended): for a snapshot whose status is ["completed"] the
    result view is the completed view, not the failure view; it holds a
    video player exactly when [video_available] is true and [video_url]
    is a non-empty string, and it shows the text "Video is not available
    for this explanation." whenever it holds no player. *)
Theorem JobResult_completed_video_iff :
  forall st currentJobId d,
    JobContext.jobData st = Some d ->
    JobDetails.status (job d) = "completed" ->
    let v := JobResult toLocaleTimeString st currentJobId in
    v = CompletedView toLocaleTimeString (job d) (updates d)
    /\ (existsb (hasTag "video") v = true
        <-> JobDetails.video_available (job d) = Some true
            /\ exists u, JobDetails.video_url (job d) = Some u /\ u <> "")
    /\ (existsb (hasTag "video") v = false ->
        existsb (hasText "Video is not available for this explanation.") v = true).
Proof.
  intros st currentJobId d Hd Hs v. subst v.
  rewrite (JobResult_completed _ _ _ Hd Hs).
  split; [done|]. split; [|apply CompletedView_placeholder].
  rewrite CompletedView_video, andb_true_iff, absoluteVideoUrl_truthy.
  destruct (JobDetails.video_available (job d)) as [[]|]; cbn;
    split; intros [H1 H2]; done.
Qed.
End ViewProperties.

Section ViewExamples.
Import Api View.

(** C2 (as stated, refuted): a failed job whose [error] is the empty
    string, which is not null, is shown with the fallback text and not
    with its [error]. *)
Lemma JobResult_failed_empty_error_counterexample :
  let d := Samples.snapshot "job-1" "failed" (Some "") None None in
  let shown :=
    flat_map (textAfter "Reason: ")
      (JobResult (fun s => s) (Samples.holding d) "job-1") in
  JobDetails.status (job d) = "failed"
  /\ JobDetails.error (job d) = Some ""
  /\ shown = ["Unknown error occurred"]
  /\ shown <> [""].
Proof. vm_compute. repeat split. discriminate. Qed.

Lemma JobResult_failed_shows_error_and_no_video_witness :
  let d := Samples.snapshot "job-1" "failed"
             (Some "speech_synthesis: voice not found") None None in
  let v := JobResult (fun s => s) (Samples.holding d) "job-1" in
  existsb (hasTag "video") v = false
  /\ flat_map (textAfter "Reason: ") v = ["speech_synthesis: voice not found"].
Proof.
  intros d v.
  destruct (JobResult_failed_shows_error_and_no_video (fun s => s)
              (Samples.holding d) "job-1" d eq_refl eq_refl)
    as (_ & Hv & He & _).
  split; [exact Hv|].
  apply He; [reflexivity | discriminate].
Defined.

(** C8 (as stated, refuted): a completed job with [video_available]
    true and a [video_url] that is the empty string, which is not null,
    gets the placeholder and no video player. *)
Lemma JobResult_completed_empty_url_counterexample :
  let d := Samples.snapshot "job-1" "completed" None (Some true) (Some "") in
  let v := JobResult (fun s => s) (Samples.holding d) "job-1" in
  JobDetails.status (job d) = "completed"
  /\ JobDetails.video_available (job d) = Some true
  /\ JobDetails.video_url (job d) = Some ""
  /\ existsb (hasTag "video") v = false
  /\ existsb (hasText "Video is not available for this explanation.") v = true.
Proof. vm_compute. repeat split. Qed.

Lemma JobResult_completed_video_iff_witness :
  let d := Samples.snapshot "job-1" "completed" None (Some true)
             (Some "/api/videos/job-1") in
  existsb (hasTag "video") (JobResult (fun s => s) (Samples.holding d) "job-1")
  = true.
Proof.
  intros d.
  destruct (JobResult_completed_video_iff (fun s => s)
              (Samples.holding d) "job-1" d eq_refl eq_refl) as (_ & Hv & _).
  apply Hv. split; [reflexivity|].
  eexists. split; [reflexivity | discriminate].
Defined.
End ViewExamples.

(** ** Polling on the results page *)
Section PollingProperties.
Import Api Results.

(** With respect to the [jobData] that it captured, [scheduleFetch]
    sets a timer of five seconds when the page is mounted, the job id is
    not empty and the captured status is absent or none of
    ["completed"], ["failed"] and ["error"]; it sets none otherwise. *)
Lemma scheduleFetch_timer rd refs :
  timeoutRef (scheduleFetch rd refs)
  = if negb (isUnmountedRef refs) && Js.truthy (jobId rd)
       && statusAllowsPolling (jobData rd)
    then Some 5000%Z else None.
Proof. unfold scheduleFetch; cbn. by destruct (_ && _). Qed.

Lemma scheduleFetch_isUnmounted rd refs :
  isUnmountedRef (scheduleFetch rd refs) = isUnmountedRef refs.
Proof. unfold scheduleFetch; cbn. by destruct (_ && _). Qed.

Lemma statusAllowsPolling_terminal d :
  JobDetails.status (job d) = "completed" \/ JobDetails.status (job d) = "failed" ->
  statusAllowsPolling (Some d) = false.
Proof. unfold statusAllowsPolling. by intros [-> | ->]. Qed.

Lemma fetchThenSchedule_keeps_polling env rd now nowIso r w :
  jobData rd = None ->
  Js.truthy (jobId rd) = true ->
  isUnmountedRef (page w) = false ->
  JobContext.fetching (ctxRefs w) (jobId rd) = false ->
  polling rd (fetchThenSchedule env rd now nowIso r w)
  /\ sent (fetchThenSchedule env rd now nowIso r w)
     = (sent w ++ [getJobStatus_request env (jobId rd)])%list.
Proof.
  intros Hd Hid Hm Hf. unfold fetchThenSchedule, JobContext.fetchJobById_begin.
  rewrite Hf, Hd.
  destruct (JobContext.fetchJobById_settle _ _ _ _) as [[refs2 st2] pr] eqn:E.
  assert (refs2 = JobContext.setFetching (jobId rd) false
                    (JobContext.setLastFetchTime (jobId rd) now
                       (JobContext.setFetching (jobId rd) true (ctxRefs w)))) as ->.
  { unfold JobContext.fetchJobById_settle in E.
    by destruct (getJobStatus r); injection E as <- _ _. }
  unfold polling; cbn.
  rewrite scheduleFetch_timer, scheduleFetch_isUnmounted, Hm, Hid, Hd.
  by rewrite fetching_setFetching.
Qed.

Lemma onTimeout_keeps_polling env rd now nowIso r w :
  jobData rd = None ->
  Js.truthy (jobId rd) = true ->
  polling rd w ->
  polling rd (onTimeout env rd now nowIso r w)
  /\ sent (onTimeout env rd now nowIso r w)
     = (sent w ++ [getJobStatus_request env (jobId rd)])%list.
Proof.
  intros Hd Hid (Ht & Hm & Hf). unfold onTimeout; cbn. rewrite Hm, Hid; cbn.
  by destruct (fetchThenSchedule_keeps_polling env rd now nowIso r
                 (withPage (fun refs =>
                    {| timeoutRef := None;
                       isUnmountedRef := isUnmountedRef refs |}) w)).
Qed.

(** A page mounted while the context holds no data polls for ever: each
    firing of the timer sends a request and sets the next timer,
    whatever the backend answers, a terminal status included. *)
Lemma poll_never_stops env rd rs w :
  jobData rd = None ->
  Js.truthy (jobId rd) = true ->
  polling rd w ->
  polling rd (poll env rd rs w)
  /\ sent (poll env rd rs w)
     = (sent w ++ repeat (getJobStatus_request env (jobId rd)) (length rs))%list.
Proof.
  intros Hd Hid. revert w.
  induction rs as [|[[now nowIso] r] rs IH]; intros w Hp; cbn.
  - by rewrite app_nil_r.
  - destruct Hp as (Ht & Hm & Hf). rewrite Ht.
    destruct (onTimeout_keeps_polling env rd now nowIso r w Hd Hid) as [Hp' Hs];
      [done|].
    destruct (IH _ Hp') as [Hp'' Hs'']. split; [done|].
    by rewrite Hs'', Hs, <- app_assoc.
Qed.

(** C4 (the code evaluated where it departs from the claim).  A page
    mounted for job-1 while the context holds no data: the first fetch
    already reports ["completed"], and yet a timer is set after it and
    after each of the next three fetches, four requests in all.  And a
    page mounted for job-2 while the context still holds the completed
    job-1: the fetch reports that job-2 is running, and no timer is
    set. *)
Theorem results_page_polling_ignores_fetched_status :
  let completed1 :=
    Samples.snapshot "job-1" "completed" None (Some true) (Some "/api/videos/job-1") in
  let running2 := Samples.snapshot "job-2" "script_generating" None None None in
  let rd1 := {| jobId := "job-1"; jobData := None |} in
  let answer1 := Response true 200 (inl completed1) in
  let w1 := effect None rd1 1000 "" answer1 initialWorld in
  let w4 := poll None rd1
              [(6100%Z, "", answer1); (11200%Z, "", answer1); (16300%Z, "", answer1)]
              w1 in
  let rd2 := {| jobId := "job-2"; jobData := Some completed1 |} in
  let w1' := effect None rd2 1000 "" (Response true 200 (inl running2))
               {| page := page initialWorld; ctxRefs := ctxRefs initialWorld;
                  ctx := Samples.holding completed1; sent := [] |} in
  (JobContext.jobData (ctx w1) = Some completed1
   /\ timeoutRef (page w1) = Some 5000%Z
   /\ JobContext.jobData (ctx w4) = Some completed1
   /\ timeoutRef (page w4) = Some 5000%Z
   /\ sent w4 = repeat (getJobStatus_request None "job-1") 4)
  /\ (JobContext.jobData (ctx w1') = Some running2
      /\ isUnmountedRef (page w1') = false
      /\ timeoutRef (page w1') = None
      /\ sent w1' = [getJobStatus_request None "job-2"]).
Proof. vm_compute. repeat split. Qed.
End PollingProperties.

(** ** The orchestrator: fork and join *)
Section OrchestratorProperties.
Import Orchestrator.
Local Open Scope list_scope.

Lemma completionIn_app s l1 l2 :
  completionIn s (l1 ++ l2) = completionIn s l1 || completionIn s l2.
Proof. apply existsb_app. Qed.

Lemma completionIn_exists s l :
  completionIn s l = true <->
  exists c summary, c ∈ l /\ message c = StageCompleted s summary.
Proof.
  unfold completionIn. rewrite existsb_exists. split.
  - intros (c & Hin & Hc). unfold isCompletionOf in Hc.
    destruct (message c) as [| |s' summary| | | |] eqn:E; try discriminate.
    apply bool_decide_eq_true in Hc as ->.
    exists c, summary. by rewrite list_elem_of_In.
  - intros (c & summary & Hin & Hc). exists c.
    rewrite <- list_elem_of_In. split; [done|].
    unfold isCompletionOf. rewrite Hc. by apply bool_decide_eq_true.
Qed.

(** Splitting a log that was extended by one update: the update picked
    is the new one, or it was in the log before. *)
Lemma snoc_split {A} (l : list A) (x : A) pre u post :
  l ++ [x] = pre ++ u :: post ->
  (post = [] /\ pre = l /\ u = x)
  \/ exists post', post = post' ++ [x] /\ l = pre ++ u :: post'.
Proof.
  destruct post as [|p post' _] using rev_ind.
  - intros H. left. by apply app_inj_tail in H as [-> ->].
  - intros H. right. exists post'.
    rewrite app_comm_cons, app_assoc in H.
    by apply app_inj_tail in H as [-> ->].
Qed.

Lemma Inv_Create job_id persona_id query now :
  Inv (Create job_id persona_id query now).
Proof.
  split; cbn.
  - intros pre u post H Hu.
    destruct pre as [|a [|b pre]]; try discriminate H.
    injection H as <- _. discriminate Hu.
  - discriminate.
  - intros s Hs. set_solver.
Qed.

Lemma Inv_Transition newStatus msg fields st :
  Inv st ->
  (newStatus = Status.lipsync_processing ->
   Stage.speech_synthesis ∈ completedSet st
   /\ Stage.visual_generation ∈ completedSet st) ->
  Inv (Transition newStatus msg fields st).
Proof.
  intros [Hlog Hst Hcompl] Hnew. split; cbn -[completionIn].
  - intros pre u post H Hu.
    apply snoc_split in H as [(-> & -> & ->) | (post' & -> & H)].
    + cbn in Hu. destruct (Hnew Hu). split; by apply Hcompl.
    + by apply (Hlog pre u post').
  - done.
  - intros s Hs. rewrite completionIn_app, (Hcompl s Hs). done.
Qed.

Lemma Inv_withStarted s st : Inv st -> Inv (withStarted s st).
Proof. intros [Hlog Hst Hcompl]. by split. Qed.

Lemma Inv_withCompleted s st :
  Inv st -> completionIn s (updates st) = true -> Inv (withCompleted s st).
Proof.
  intros [Hlog Hst Hcompl] Hs. split; cbn -[completionIn].
  - done.
  - intros H. destruct (Hst H) as [H1 H2].
    split; apply elem_of_union; by right.
  - intros s' [->%elem_of_singleton | H]%elem_of_union; auto.
Qed.

Lemma Inv_Finalize outcome msg fields st st' :
  Inv st -> Status.terminal outcome = true ->
  Finalize outcome msg fields st = Some st' -> Inv st'.
Proof.
  intros HI Hout. unfold Finalize.
  destruct (Status.terminal (j_status (job st))).
  - case_bool_decide; [|discriminate]. by intros [= <-].
  - rewrite Hout. intros [= <-]. apply Inv_Transition; [done|].
    intros ->. discriminate Hout.
Qed.

(** A stage that is ready has all the stages it depends on completed. *)
Lemma ReadyStages_deps s completed launched :
  s ∈ ReadyStages completed launched ->
  Forall (fun d => d ∈ completed) (Stage.deps s) /\ s ∉ launched.
Proof.
  unfold ReadyStages. rewrite list_elem_of_In, filter_In, andb_true_iff.
  intros (_ & H1 & H2).
  by apply bool_decide_eq_true in H1; apply bool_decide_eq_true in H2.
Qed.

Lemma inProgress_lipsync s :
  inProgress s = Status.lipsync_processing -> s = Stage.lipsync_processing.
Proof. by destruct s. Qed.

Lemma Inv_step st ev st' : Inv st -> step st ev = Some st' -> Inv st'.
Proof.
  intros HI. unfold step.
  destruct (Status.terminal (j_status (job st))); [discriminate|].
  destruct ev as [s | s output | s | s reason | video_url | ].
  - case_bool_decide as Hready; [|discriminate]. intros [= <-].
    apply Inv_withStarted, Inv_Transition; [done|].
    case_bool_decide.
    + intros ->%inProgress_lipsync.
      apply ReadyStages_deps in Hready as [Hdeps _]. cbn in Hdeps.
      rewrite !Forall_cons in Hdeps. by destruct Hdeps as (? & ? & _).
    + apply HI.
  - case_bool_decide; [|discriminate]. intros [= <-].
    apply Inv_withCompleted.
    + apply Inv_Transition; [done | apply HI].
    + cbn -[completionIn]. rewrite completionIn_app. apply orb_true_iff. right. cbn.
      unfold isCompletionOf; cbn. by rewrite bool_decide_eq_true_2.
  - case_bool_decide; [|discriminate]. intros [= <-].
    apply Inv_Transition; [done | apply HI].
  - case_bool_decide; [|discriminate]. by apply Inv_Finalize.
  - destruct (IsTerminal _); [|discriminate]. by apply Inv_Finalize.
  - destruct (_ && _); [|discriminate]. by apply Inv_Finalize.
Qed.

Lemma Inv_run evs : forall st st', Inv st -> run st evs = Some st' -> Inv st'.
Proof.
  induction evs as [|ev evs IH]; intros st st' HI; cbn.
  - by intros [= <-].
  - destruct (step st ev) as [st1|] eqn:E; [|discriminate].
    apply IH. by eapply Inv_step.
Qed.

(** C6: in every run of the orchestrator on a job, every update that
    reports [lipsync_processing] comes after a completion update of
    [speech_synthesis] and after one of [visual_generation]. *)
Theorem lipsync_after_speech_and_visual :
  forall job_id persona_id query now evs st,
    run (Create job_id persona_id query now) evs = Some st ->
    forall pre u post,
      updates st = pre ++ u :: post ->
      status u = Status.lipsync_processing ->
      (exists c summary,
          c ∈ pre /\ message c = StageCompleted Stage.speech_synthesis summary)
      /\ (exists c summary,
            c ∈ pre /\ message c = StageCompleted Stage.visual_generation summary).
Proof.
  intros job_id persona_id query now evs st Hrun pre u post Hsplit Hu.
  pose proof (Inv_run evs _ _ (Inv_Create job_id persona_id query now) Hrun) as HI.
  destruct (inv_log st HI pre u post Hsplit Hu) as [H1 H2].
  by rewrite <- !completionIn_exists.
Qed.

Lemma lipsync_after_speech_and_visual_witness :
  (status <$> updates Samples.finalState !! 7) = Some Status.lipsync_processing
  /\ (exists c summary,
        c ∈ take 7 (updates Samples.finalState)
        /\ message c = StageCompleted Stage.speech_synthesis summary)
  /\ (exists c summary,
        c ∈ take 7 (updates Samples.finalState)
        /\ message c = StageCompleted Stage.visual_generation summary).
Proof.
  split; [vm_compute; reflexivity|].
  apply (lipsync_after_speech_and_visual "job-1" "p1" "explain gravity" 0
           Samples.fullRun Samples.finalState)
    with (u := {| id := 7; job_id := "job-1";
                  status := Status.lipsync_processing;
                  message := StageStarted Stage.lipsync_processing;
                  created_at := 7 |})
         (post := drop 8 (updates Samples.finalState)).
  - vm_compute. reflexivity.
  - vm_compute. reflexivity.
  - reflexivity.
Defined.
End OrchestratorProperties.


(** * Further properties of the client *)

(** ** Strings, continued *)
Section JsMoreProperties.

Lemma trimEnd_last s c :
  Js.lastChar (Js.trimEnd s) = Some c -> Js.isWhiteSpace c = false.
Proof.
  induction s as [|a r IH]; cbn; [discriminate|].
  destruct (Js.trimEnd r) as [|b r'] eqn:E.
  - destruct (Js.isWhiteSpace a) eqn:Ha; cbn; [discriminate|].
    by intros [= <-].
  - exact IH.
Qed.

Lemma trimEnd_first c r :
  Js.isWhiteSpace c = false -> Js.firstChar (Js.trimEnd (String c r)) = Some c.
Proof.
  intros Hc. cbn. destruct (Js.trimEnd r); [by rewrite Hc | done].
Qed.

(** What [trim] returns neither starts nor ends with white space. *)
Lemma trim_no_outer_whitespace s c :
  Js.firstChar (Js.trim s) = Some c \/ Js.lastChar (Js.trim s) = Some c ->
  Js.isWhiteSpace c = false.
Proof.
  unfold Js.trim. intros [H | H]; [|by eapply trimEnd_last].
  destruct (Js.trimStart s) as [|a r] eqn:E; [discriminate H|].
  pose proof (trimStart_head _ _ _ E) as Ha.
  rewrite (trimEnd_first _ _ Ha) in H. by injection H as <-.
Qed.

Lemma lowerChar_idempotent c : Js.lowerChar (Js.lowerChar c) = Js.lowerChar c.
Proof. by destruct c as [[] [] [] [] [] [] [] []]. Qed.

Lemma toLowerCase_idempotent s :
  Js.toLowerCase (Js.toLowerCase s) = Js.toLowerCase s.
Proof.
  induction s as [|c r IH]; cbn; [done|].
  by rewrite lowerChar_idempotent, IH.
Qed.

Lemma startsWith_refl s : Js.startsWith s s = true.
Proof.
  induction s as [|c r IH]; cbn; [done|]. by rewrite Ascii.eqb_refl, IH.
Qed.

Lemma includes_refl s : Js.includes s s = true.
Proof. destruct s; cbn; [done|]. by rewrite Ascii.eqb_refl, startsWith_refl. Qed.

Lemma includes_empty s : Js.includes s "" = true.
Proof. by destruct s. Qed.
End JsMoreProperties.

(** ** The API functions, continued *)
Section ApiMoreProperties.
Import Api.

(** X1: on a response that is not OK, [createJob] always rejects.  The
    message is the [error] member of the body when the body parses and
    that member is a non-empty string; it names the status code when the
    member is absent or empty; and when the body does not parse it is the
    message of the parse error, the status code being lost. *)
Theorem createJob_not_ok_message :
  forall status,
    (forall j b, createJob (Response false status j) <> Resolved b)
    /\ (forall body m,
          cb_error body = Some m -> m <> "" ->
          createJob (Response false status (inl body)) = Rejected (Error m))
    /\ (forall body,
          cb_error body = None \/ cb_error body = Some "" ->
          createJob (Response false status (inl body))
          = Rejected (Error ("Failed to create job: " ++ Js.numberToString status)))
    /\ (forall msg,
          createJob (Response false status (inr msg)) = Rejected (Error msg)).
Proof.
  intros status. repeat split.
  - intros [body|msg] b; cbn; discriminate.
  - intros body m Hm Hne. cbn. rewrite Hm. cbn.
    destruct (Js.truthy m) eqn:Ht; [done|]. by apply truthy_false_iff in Ht.
  - intros body [H | H]; cbn; by rewrite H.
Qed.

Lemma createJob_not_ok_message_witness :
  createJob (Response false 400
               (inl {| cb_job_id := None; cb_status := None;
                       cb_error := Some "Unknown persona" |}))
  = Rejected (Error "Unknown persona")
  /\ createJob (Response false 500
                  (inl {| cb_job_id := None; cb_status := None; cb_error := Some "" |}))
     = Rejected (Error "Failed to create job: 500").
Proof.
  split.
  - destruct (createJob_not_ok_message 400) as (_ & H & _).
    apply H; [reflexivity | discriminate].
  - destruct (createJob_not_ok_message 500) as (_ & _ & H & _).
    apply H. right. reflexivity.
Defined.

(** X2: [fetchPersonas] resolves only on an OK response whose body
    parses; it then returns one celebrity per persona, in the order of the
    body, with the id and the name of the persona and its [icon_url] as
    image.  On every other response it rejects. *)
Theorem fetchPersonas_one_celebrity_per_persona :
  forall (r : FetchResult (list PersonaJson)) (cs : list Celebrity),
    fetchPersonas r = Resolved cs ->
    exists status data,
      r = Response true status (inl data)
      /\ length cs = length data
      /\ forall i,
          cs !! i
          = (fun persona => {| id := p_id persona; name := p_name persona;
                               image := p_icon_url persona |}) <$> data !! i.
Proof.
  intros r cs. destruct r as [e | [] status [data | msg]]; cbn; try discriminate.
  intros [= <-]. exists status, data. split; [done|].
  split; [by rewrite length_map|].
  intros i. apply list_lookup_fmap.
Qed.

Lemma fetchPersonas_one_celebrity_per_persona_witness :
  exists status data,
    Response true 200
      (inl [ {| p_id := "p1"; p_name := "Ada"; p_icon_url := "/ada.png" |};
             {| p_id := "p2"; p_name := "Bob"; p_icon_url := "/bob.png" |} ])
    = Response true status (inl data)
    /\ length [ {| id := "p1"; name := "Ada"; image := "/ada.png" |};
                {| id := "p2"; name := "Bob"; image := "/bob.png" |} ]
       = length data
    /\ forall i,
        [ {| id := "p1"; name := "Ada"; image := "/ada.png" |};
          {| id := "p2"; name := "Bob"; image := "/bob.png" |} ] !! i
        = (fun persona => {| id := p_id persona; name := p_name persona;
                             image := p_icon_url persona |}) <$> data !! i.
Proof.
  apply (fetchPersonas_one_celebrity_per_persona
           (Response true 200
              (inl [ {| p_id := "p1"; p_name := "Ada"; p_icon_url := "/ada.png" |};
                     {| p_id := "p2"; p_name := "Bob"; p_icon_url := "/bob.png" |} ]))).
  reflexivity.
Defined.
End ApiMoreProperties.

(** ** The dashboard, continued *)
Section DashboardMoreProperties.
Import Api Dashboard.

Lemma canSubmit_begin env p ctx :
  canSubmit p = false <-> handleGenerate_begin env p ctx = None.
Proof.
  unfold canSubmit, handleGenerate_begin.
  destruct (selectedCelebrity p) as [c|]; [|done].
  destruct (Js.truthy (Js.trim (topic p))), (isSubmitting p); cbn; split;
    done || discriminate.
Qed.

(** X3: the button and its handler agree: [handleGenerate] sends a
    request exactly when [canSubmit] holds, the condition under which the
    button is enabled; when it does not hold (a click while a submission
    is under way among the cases) nothing is sent, no route is pushed and
    no state changes. *)
Theorem handleGenerate_sends_iff_canSubmit :
  forall env (r : FetchResult CreateBody) (p : State) (ctx : JobContext.State),
    (canSubmit p = true <-> o_requests (handleGenerate env r p ctx) <> [])
    /\ (canSubmit p = false ->
        handleGenerate env r p ctx
        = {| o_page := p; o_ctx := ctx; o_requests := []; o_pushed := None |}).
Proof.
  intros env r p ctx.
  pose proof (canSubmit_begin env p ctx) as Hb. unfold handleGenerate.
  destruct (handleGenerate_begin env p ctx) as [[[p1 ctx1] req]|].
  - destruct (handleGenerate_settle r p1 ctx1) as [[p2 ctx2] route]; cbn.
    destruct (canSubmit p).
    + by split.
    + destruct Hb as [Hb _]. discriminate (Hb eq_refl).
  - cbn. destruct (canSubmit p).
    + destruct Hb as [_ Hb]. discriminate (Hb eq_refl).
    + split; [split; [discriminate | congruence] | done].
Qed.

Lemma handleGenerate_sends_iff_canSubmit_witness :
  let p := {| selectedCelebrity := Some {| id := "p1"; name := "Ada"; image := "a.png" |};
              topic := "gravity"; isSubmitting := true; loadError := None |} in
  handleGenerate None (NetworkFailure NonError) p JobContext.initialState
  = {| o_page := p; o_ctx := JobContext.initialState;
       o_requests := []; o_pushed := None |}.
Proof.
  intros p.
  destruct (handleGenerate_sends_iff_canSubmit None (NetworkFailure NonError) p
              JobContext.initialState) as [_ H].
  apply H. reflexivity.
Defined.

(** X4: every request that [handleGenerate] sends is a POST to the jobs
    endpoint whose body carries the id of the selected persona and the
    topic trimmed: a query that is not empty and neither starts nor ends
    with white space. *)
Theorem handleGenerate_sends_trimmed_query :
  forall env (r : FetchResult CreateBody) (p : State) (ctx : JobContext.State) req,
    In req (o_requests (handleGenerate env r p ctx)) ->
    exists c q,
      selectedCelebrity p = Some c
      /\ method req = "POST"
      /\ url req = API_BASE_URL env ++ "/jobs"
      /\ body req = Some {| query := q; persona := id c |}
      /\ q = Js.trim (topic p)
      /\ q <> ""
      /\ (forall a, Js.firstChar q = Some a -> Js.isWhiteSpace a = false)
      /\ (forall a, Js.lastChar q = Some a -> Js.isWhiteSpace a = false).
Proof.
  intros env r p ctx req. unfold handleGenerate, handleGenerate_begin.
  destruct (selectedCelebrity p) as [c|]; [|intros []].
  destruct (Js.truthy (Js.trim (topic p))) eqn:Ht; cbn; [|intros []].
  destruct (isSubmitting p); cbn; [intros []|].
  destruct (handleGenerate_settle _ _ _) as [[p2 ctx2] route]; cbn.
  intros [<- | []]. exists c, (Js.trim (topic p)). repeat split.
  - intros H. rewrite H in Ht. discriminate Ht.
  - intros a Ha. eapply trim_no_outer_whitespace; eauto.
  - intros a Ha. eapply trim_no_outer_whitespace; eauto.
Qed.

Lemma handleGenerate_sends_trimmed_query_witness :
  exists c q,
    Some {| id := "p1"; name := "Ada"; image := "a.png" |} = Some c
    /\ "POST" = "POST"
    /\ "http://localhost:8000/api/jobs" = API_BASE_URL None ++ "/jobs"
    /\ Some {| query := "explain gravity"; persona := "p1" |}
       = Some {| query := q; persona := id c |}
    /\ q = Js.trim "  explain gravity "
    /\ q <> ""
    /\ (forall a, Js.firstChar q = Some a -> Js.isWhiteSpace a = false)
    /\ (forall a, Js.lastChar q = Some a -> Js.isWhiteSpace a = false).
Proof.
  apply (handleGenerate_sends_trimmed_query None (NetworkFailure NonError)
           {| selectedCelebrity := Some {| id := "p1"; name := "Ada"; image := "a.png" |};
              topic := "  explain gravity "; isSubmitting := false;
              loadError := None |}
           JobContext.initialState
           {| method := "POST"; url := "http://localhost:8000/api/jobs";
              body := Some {| query := "explain gravity"; persona := "p1" |} |}).
  left. reflexivity.
Defined.
End DashboardMoreProperties.

Section DashboardOutcomeProperties.
Import Api Dashboard.



Lemma filteredCelebrities_In cs term c :
  In c (filteredCelebrities cs term)
  <-> In c cs /\ Js.includes (Js.toLowerCase (name c)) (Js.toLowerCase term) = true.
Proof. unfold filteredCelebrities. apply filter_In. Qed.

Lemma filter_all {A} (f : A -> bool) (l : list A) :
  (forall x, In x l -> f x = true) -> List.filter f l = l.
Proof.
  induction l as [|a l IH]; cbn; [done|]. intros H.
  rewrite (H a) by by left. f_equal. apply IH. intros x Hx. apply H. by right.
Qed.

Lemma filteredCelebrities_empty_term cs : filteredCelebrities cs "" = cs.
Proof. apply filter_all. intros c _. apply includes_empty. Qed.

Lemma filter_sublist {A} (f : A -> bool) (l : list A) :
  sublist (List.filter f l) l.
Proof.
  induction l as [|a l IH]; cbn; [constructor|].
  destruct (f a); by constructor.
Qed.

(** X6: the search of the persona list is substring matching on the
    name, blind to the case of letters: a persona is kept exactly when
    it is in the list and its name in lower case contains the term in
    lower case; the kept personas come in the order of the list, none
    added and none repeated more often than in the list.  Hence an empty
    term keeps the whole list, the case of the letters of the term
    changes nothing, and a persona is always found by its own name, in
    whatever case it is typed. *)
Theorem filteredCelebrities_search :
  forall (cs : list Celebrity) (term : string),
    (forall c, In c (filteredCelebrities cs term)
               <-> In c cs
                   /\ Js.includes (Js.toLowerCase (name c)) (Js.toLowerCase term) = true)
    /\ sublist (filteredCelebrities cs term) cs
    /\ filteredCelebrities cs "" = cs
    /\ filteredCelebrities cs (Js.toLowerCase term) = filteredCelebrities cs term
    /\ (forall c, In c cs -> Js.toLowerCase term = Js.toLowerCase (name c) ->
                  In c (filteredCelebrities cs term)).
Proof.
  intros cs term. split; [|split; [|split; [|split]]].
  - intros c. apply filteredCelebrities_In.
  - apply filter_sublist.
  - apply filteredCelebrities_empty_term.
  - unfold filteredCelebrities. by rewrite toLowerCase_idempotent.
  - intros c Hc Ht. apply filteredCelebrities_In. split; [done|].
    rewrite Ht. apply includes_refl.
Qed.

Lemma filteredCelebrities_search_witness :
  In {| id := "p2"; name := "Bob Ross"; image := "b.png" |}
    (filteredCelebrities
       [ {| id := "p1"; name := "Ada"; image := "a.png" |};
         {| id := "p2"; name := "Bob Ross"; image := "b.png" |} ]
       "b r")
  /\ In {| id := "p2"; name := "Bob Ross"; image := "b.png" |}
       (filteredCelebrities
          [ {| id := "p1"; name := "Ada"; image := "a.png" |};
            {| id := "p2"; name := "Bob Ross"; image := "b.png" |} ]
          "BOB ross").
Proof.
  split.
  - destruct (filteredCelebrities_search
                [ {| id := "p1"; name := "Ada"; image := "a.png" |};
                  {| id := "p2"; name := "Bob Ross"; image := "b.png" |} ]
                "b r") as (H & _).
    apply H. split; [right; left; reflexivity | reflexivity].
  - destruct (filteredCelebrities_search
                [ {| id := "p1"; name := "Ada"; image := "a.png" |};
                  {| id := "p2"; name := "Bob Ross"; image := "b.png" |} ]
                "BOB ross") as (_ & _ & _ & _ & H).
    apply H; [right; left; reflexivity | reflexivity].
Defined.

(** X7: the persona column shows at most one of its four blocks, and it
    shows none exactly when the load is over, the list is empty and a
    load error is set (the error is then shown beside the button). *)
Theorem personaPanels_at_most_one :
  forall (cat : Catalog) (term : string) (loadError : option string),
    length (personaPanels cat term loadError) <= 1
    /\ (personaPanels cat term loadError = []
        <-> loadingCelebrities cat = false
            /\ celebrities cat = []
            /\ Js.truthy_opt loadError = true).
Proof.
  intros [cs loading] term loadError. unfold personaPanels.
  cbn [celebrities loadingCelebrities].
  generalize (filteredCelebrities cs term). intros f.
  destruct loading, cs as [|c cs], f as [|c' f], (Js.truthy_opt loadError);
    cbn; (split; [lia|]); split;
    first [discriminate | done | by intros (? & ? & ?)].
Qed.

(** X8: a load of the personas that succeeds with a list that is not
    empty ends, when nothing is typed in the search box, with the grid
    alone, holding one card per persona in the order of the response;
    the page state is left as it was. *)
Theorem loadCelebrities_shows_all :
  forall status (data : list PersonaJson) (cat : Catalog) (p : State),
    data <> [] ->
    let '(cat', p') :=
      loadCelebrities_settle (Response true status (inl data)) cat p in
    p' = p
    /\ exists cards,
        personaPanels cat' "" (loadError p') = [GridPanel cards]
        /\ map id cards = map p_id data
        /\ map name cards = map p_name data
        /\ map image cards = map p_icon_url data.
Proof.
  intros status data cat p Hne. unfold loadCelebrities_settle.
  cbn -[personaPanels]. split; [done|].
  eexists. unfold personaPanels. cbn [celebrities loadingCelebrities].
  rewrite filteredCelebrities_empty_term, length_map.
  destruct data as [|d ds]; [done|]. cbn [length Nat.ltb Nat.leb Nat.eqb negb andb app].
  split; [reflexivity|].
  rewrite !map_map. cbn. done.
Qed.

Lemma loadCelebrities_shows_all_witness :
  let '(cat', p') :=
    loadCelebrities_settle
      (Response true 200
         (inl [ {| p_id := "p1"; p_name := "Ada"; p_icon_url := "/ada.png" |} ]))
      {| celebrities := []; loadingCelebrities := true |}
      {| selectedCelebrity := None; topic := ""; isSubmitting := false;
         loadError := None |} in
  p' = {| selectedCelebrity := None; topic := ""; isSubmitting := false;
          loadError := None |}
  /\ exists cards,
      personaPanels cat' "" (loadError p') = [GridPanel cards]
      /\ map id cards = map p_id [ {| p_id := "p1"; p_name := "Ada"; p_icon_url := "/ada.png" |} ]
      /\ map name cards = map p_name [ {| p_id := "p1"; p_name := "Ada"; p_icon_url := "/ada.png" |} ]
      /\ map image cards = map p_icon_url [ {| p_id := "p1"; p_name := "Ada"; p_icon_url := "/ada.png" |} ].
Proof.
  apply (loadCelebrities_shows_all 200
           [ {| p_id := "p1"; p_name := "Ada"; p_icon_url := "/ada.png" |} ]
           {| celebrities := []; loadingCelebrities := true |}
           {| selectedCelebrity := None; topic := ""; isSubmitting := false;
              loadError := None |}).
  discriminate.
Defined.
End DashboardOutcomeProperties.

(** ** The job context, continued *)
Section JobContextMoreProperties.
Import Api JobContext.

(** X9: when a call of [fetchJobById] reaches the backend, whatever
    data its callback captured.  The call returns at once, sending
    nothing, exactly when a fetch for the job is in flight, or the
    captured data is for the job and less than three seconds have gone
    since the last request for it; otherwise it sends the one GET for the
    job. *)
Theorem fetchJobById_sends_iff :
  forall env cj now nowIso jobId refs st,
    let begun := fetchJobById_begin env cj now nowIso jobId refs st in
    ((exists a, begun = Immediate a)
     \/ exists refs1 st1, begun = Awaiting refs1 st1 (getJobStatus_request env jobId))
    /\ ((exists a, begun = Immediate a)
        <-> fetching refs jobId = true
            \/ ((now - lastFetch refs jobId < 3000)%Z
                /\ exists d, cj = Some d /\ JobDetails.job_id (job d) = jobId)).
Proof.
  intros env cj now nowIso jobId refs st. cbn. unfold fetchJobById_begin.
  destruct (fetching refs jobId); cbn.
  { split; [left; eauto|]. split; [by left | eauto]. }
  destruct cj as [d|].
  - destruct (Z.ltb_spec (now - lastFetch refs jobId) 3000) as [Hlt | Hge];
      destruct (Js.seq (JobDetails.job_id (job d)) jobId) eqn:Hid; cbn.
    + apply seq_true_iff in Hid. split; [left; eauto|].
      split; [|eauto]. intros _. right. eauto.
    + split; [right; eauto|]. split; [by intros [a Ha]|].
      intros [? | (_ & d' & [= <-] & Hd)]; [done|].
      apply seq_true_iff in Hd. congruence.
    + split; [right; eauto|]. split; [by intros [a Ha]|].
      intros [? | (? & _)]; [done | lia].
    + split; [right; eauto|]. split; [by intros [a Ha]|].
      intros [? | (? & _)]; [done | lia].
  - split; [right; eauto|]. split; [by intros [a Ha]|].
    intros [? | (_ & d & ? & _)]; done.
Qed.

(** A job id that names a member of [Object.prototype] is in flight from
    the start: on a fresh provider the call returns the pending snapshot
    and sends nothing. *)
Example fetchJobById_constructor :
  fetchJobById_begin None None 1000 "t" "constructor" initialRefs initialState
  = Immediate (pendingJob "constructor" "t").
Proof. reflexivity. Qed.

(** X10: one request at a time per job.  From the moment a call of
    [fetchJobById] has sent its request until the response settles,
    every other call for the same job returns at once (the cached data of
    the caller, or the made-up pending snapshot when there is none) and
    sends nothing; and when the response settles, whatever it is, the
    in-flight mark of the job is taken off. *)
Theorem fetchJobById_one_request_in_flight :
  forall env cj now nowIso jobId refs st refs1 st1 req,
    fetchJobById_begin env cj now nowIso jobId refs st = Awaiting refs1 st1 req ->
    (forall cj' now' nowIso' st',
        fetchJobById_begin env cj' now' nowIso' jobId refs1 st'
        = Immediate (default (pendingJob jobId nowIso') cj'))
    /\ (forall r st',
          fetching (fetchJobById_settle jobId r refs1 st').1.1 jobId = false).
Proof.
  intros env cj now nowIso jobId refs st refs1 st1 req H.
  apply fetchJobById_begin_awaiting in H as (-> & _ & _). split.
  - intros cj' now' nowIso' st'. unfold fetchJobById_begin.
    assert (fetching (setLastFetchTime jobId now (setFetching jobId true refs)) jobId
            = true) as ->.
    { unfold fetching, setLastFetchTime, setFetching; cbn.
      by rewrite lookup_insert_eq. }
    by destruct cj'.
  - intros r st'. unfold fetchJobById_settle.
    destruct (getJobStatus r); cbn; apply fetching_setFetching.
Qed.

Lemma fetchJobById_one_request_in_flight_witness :
  let refs1 := setLastFetchTime "job-1" 5000%Z (setFetching "job-1" true initialRefs) in
  fetchJobById_begin None None 5100 "t" "job-1" refs1 initialState
  = Immediate (pendingJob "job-1" "t").
Proof.
  intros refs1.
  destruct (fetchJobById_one_request_in_flight None None 5000 "" "job-1"
              initialRefs initialState refs1 (setLoading true initialState)
              (getJobStatus_request None "job-1") eq_refl) as [H _].
  exact (H None 5100%Z "t" initialState).
Defined.

(** X11: a call of [fetchJobById] for one job leaves the bookkeeping of
    every other job as it was: its time of last request and its in-flight
    mark. *)
Theorem fetchJobById_other_jobs_untouched :
  forall env now nowIso jobId r refs st other,
    other <> jobId ->
    let refs' := (fetchJobById env now nowIso jobId r refs st).1.1.1 in
    lastFetch refs' other = lastFetch refs other
    /\ fetching refs' other = fetching refs other.
Proof.
  intros env now nowIso jobId r refs st other Hne. unfold fetchJobById.
  destruct (fetchJobById_begin _ _ _ _ _ _ _) as [d|refs1 st1 req] eqn:E; [done|].
  apply fetchJobById_begin_awaiting in E as (-> & _ & _).
  unfold fetchJobById_settle.
  destruct (getJobStatus r); cbn;
    unfold lastFetch, fetching, setFetching, setLastFetchTime; cbn;
    by rewrite !lookup_insert_ne.
Qed.

Lemma fetchJobById_other_jobs_untouched_witness :
  let refs := setLastFetchTime "job-2" 4000%Z initialRefs in
  lastFetch
    (fetchJobById None 9000 "" "job-1" (NetworkFailure NonError) refs initialState).1.1.1
    "job-2"
  = lastFetch refs "job-2".
Proof.
  intros refs.
  destruct (fetchJobById_other_jobs_untouched None 9000 "" "job-1"
              (NetworkFailure NonError) refs initialState "job-2") as [H _];
    [discriminate | exact H].
Defined.

(** X12: [clearJob] empties the cache of the context but not what the
    callbacks built before it captured, and it keeps the times of the
    last requests.  For a job that has no fetch in flight, a call through
    the callback built after the clear goes to the backend however
    recent the last request, while a call through a callback that
    captured data for the job before the clear is still answered from
    that data within the three seconds.  Clearing twice is clearing
    once. *)
Theorem clearJob_then_fetch_goes_to_backend :
  forall env now nowIso jobId refs st,
    fetching refs jobId = false ->
    (exists refs1 st1,
        fetchJobById_begin env (jobData (clearJob st)) now nowIso jobId refs
          (clearJob st)
        = Awaiting refs1 st1 (getJobStatus_request env jobId))
    /\ (forall d,
          JobDetails.job_id (job d) = jobId ->
          (now - lastFetch refs jobId < 3000)%Z ->
          fetchJobById_begin env (Some d) now nowIso jobId refs (clearJob st)
          = Immediate d)
    /\ clearJob (clearJob st) = clearJob st.
Proof.
  intros env now nowIso jobId refs st Hf. split; [|split; [|done]].
  - unfold fetchJobById_begin. rewrite Hf. cbn. eauto.
  - intros d Hid Hlt. unfold fetchJobById_begin. rewrite Hf.
    apply Z.ltb_lt in Hlt. by rewrite Hlt, Hid, seq_refl.
Qed.

Lemma clearJob_then_fetch_goes_to_backend_witness :
  let d := Samples.snapshot "job-1" "completed" None None None in
  let refs := setLastFetchTime "job-1" 10000%Z initialRefs in
  (exists refs1 st1,
      fetchJobById_begin None (jobData (clearJob (Samples.holding d))) 10500 ""
        "job-1" refs (clearJob (Samples.holding d))
      = Awaiting refs1 st1 (getJobStatus_request None "job-1"))
  /\ fetchJobById_begin None (Some d) 10500 "" "job-1" refs
       (clearJob (Samples.holding d))
     = Immediate d.
Proof.
  intros d refs.
  destruct (clearJob_then_fetch_goes_to_backend None 10500 "" "job-1" refs
              (Samples.holding d) eq_refl) as (H1 & H2 & _).
  split; [exact H1|].
  apply H2; [reflexivity | vm_compute; reflexivity].
Defined.

(** X13: a fetch that fails never costs the data on screen.  When the
    context holds a snapshot and is not loading, a call of [fetchJobById]
    whose request fails keeps that snapshot, records the message of the
    failure as the error of the context, rejects with the failure, and
    leaves the result view exactly as it was. *)
Theorem fetchJobById_failure_keeps_view :
  forall env toLocaleTimeString now nowIso jobId r refs st d e currentJobId,
    jobData st = Some d ->
    loading st = false ->
    getJobStatus r = Rejected e ->
    let '(refs', st', p, sent) := fetchJobById env now nowIso jobId r refs st in
    jobData st' = Some d
    /\ (sent <> [] ->
        p = Rejected e /\ error st' = Some (messageOf e "Failed to fetch job"))
    /\ View.JobResult toLocaleTimeString st' currentJobId
       = View.JobResult toLocaleTimeString st currentJobId.
Proof.
  intros env fmt now nowIso jobId r refs st d e cur Hd Hl Hr.
  unfold fetchJobById.
  destruct (fetchJobById_begin _ _ _ _ _ _ _) as [a|refs1 st1 req] eqn:E.
  - by repeat split.
  - apply fetchJobById_begin_awaiting in E as (-> & -> & ->).
    unfold fetchJobById_settle. rewrite Hr. cbn. repeat split; [done|].
    unfold View.JobResult. cbn. by rewrite Hd, Hl.
Qed.

Lemma fetchJobById_failure_keeps_view_witness :
  let d := Samples.snapshot "job-1" "processing" None None None in
  let '(refs', st', p, sent) :=
    fetchJobById None 9000 "" "job-1" (Response false 503 (inr "bad gateway"))
      initialRefs (Samples.holding d) in
  jobData st' = Some d
  /\ (sent <> [] ->
      p = Rejected (Error "Failed to fetch job status: 503")
      /\ error st'
         = Some (messageOf (Error "Failed to fetch job status: 503")
                   "Failed to fetch job"))
  /\ View.JobResult (fun s => s) st' "job-1"
     = View.JobResult (fun s => s) (Samples.holding d) "job-1".
Proof.
  intros d.
  apply (fetchJobById_failure_keeps_view None (fun s => s) 9000 "" "job-1"
           (Response false 503 (inr "bad gateway")) initialRefs
           (Samples.holding d) d (Error "Failed to fetch job status: 503") "job-1");
    reflexivity.
Defined.
End JobContextMoreProperties.

(** ** Polling on the results page, continued *)
Section PollingMoreProperties.
Import Api Results.

(** X14: after the cleanup of the effect nothing polls any more: no timer
    is waiting, a timer callback that still runs sends nothing, and a
    fetch that settles late sets no new timer. *)
Theorem cleanup_stops_polling :
  forall env rd w,
    timeoutRef (page (cleanup w)) = None
    /\ (forall rs, poll env rd rs (cleanup w) = cleanup w)
    /\ (forall now nowIso r, onTimeout env rd now nowIso r (cleanup w) = cleanup w)
    /\ (forall now nowIso r,
          page (fetchThenSchedule env rd now nowIso r (cleanup w)) = page (cleanup w)).
Proof.
  intros env rd w. repeat split.
  - by intros [|[[now nowIso] r] rs].
  - intros now nowIso r. unfold fetchThenSchedule.
    destruct (JobContext.fetchJobById_begin _ _ _ _ _ _ _); cbn; [done|].
    by destruct (JobContext.fetchJobById_settle _ _ _ _) as [[? ?] ?].
Qed.

(** X15: whether the page polls is settled when the effect runs, by the
    snapshot its closures captured and not by what the backend answers:
    once the first fetch has settled, a timer of five seconds is waiting
    if the captured status is absent or not terminal, and none is waiting
    otherwise. *)
Theorem effect_timer_decided_by_captured_snapshot :
  forall env rd now nowIso r w,
    Js.truthy (jobId rd) = true ->
    timeoutRef (page (effect env rd now nowIso r w))
    = (if statusAllowsPolling (jobData rd) then Some 5000%Z else None)
    /\ isUnmountedRef (page (effect env rd now nowIso r w)) = false.
Proof.
  intros env rd now nowIso r w Hid. unfold effect, fetchThenSchedule.
  rewrite Hid. cbn.
  destruct (JobContext.fetchJobById_begin _ _ _ _ _ _ _); cbn;
    [|destruct (JobContext.fetchJobById_settle _ _ _ _) as [[? ?] ?]; cbn];
    by rewrite scheduleFetch_timer, scheduleFetch_isUnmounted, Hid.
Qed.

Lemma effect_timer_decided_by_captured_snapshot_witness :
  timeoutRef
    (page (effect None
             {| jobId := "job-1";
                jobData := Some (Samples.snapshot "job-1" "failed" (Some "boom")
                                   None None) |}
             1000 ""
             (Response true 200
                (inl (Samples.snapshot "job-1" "assembling" None None None)))
             initialWorld))
  = None.
Proof.
  destruct (effect_timer_decided_by_captured_snapshot None
              {| jobId := "job-1";
                 jobData := Some (Samples.snapshot "job-1" "failed" (Some "boom")
                                    None None) |}
              1000 ""
              (Response true 200
                 (inl (Samples.snapshot "job-1" "assembling" None None None)))
              initialWorld eq_refl) as [H _].
  exact H.
Defined.

Lemma poll_never_stops_witness :
  let rd := {| jobId := "job-1"; jobData := None |} in
  let done := Response true 200
                (inl (Samples.snapshot "job-1" "completed" None None None)) in
  let w := effect None rd 1000 "" done initialWorld in
  polling rd (poll None rd [(6000%Z, "", done); (11000%Z, "", done)] w)
  /\ sent (poll None rd [(6000%Z, "", done); (11000%Z, "", done)] w)
     = (sent w ++ repeat (getJobStatus_request None "job-1") 2)%list.
Proof.
  intros rd done w.
  apply (poll_never_stops None rd [(6000%Z, "", done); (11000%Z, "", done)] w);
    [reflexivity | reflexivity |].
  repeat split; vm_compute; reflexivity.
Defined.

(** A page opened for a job id that names a member of [Object.prototype]:
    the job is in flight from the start, so every round gets the pending
    snapshot, nothing is ever sent, and the timer is set again. *)
Example results_page_constructor :
  let rd := {| jobId := "constructor"; jobData := None |} in
  let answer := Response false 404 (inr "Job not found") in
  let w := poll None rd [(6000%Z, "", answer); (11000%Z, "", answer)]
             (effect None rd 1000 "" answer initialWorld) in
  sent w = [] /\ timeoutRef (page w) = Some 5000%Z.
Proof. vm_compute. by split. Qed.


End PollingMoreProperties.

(** ** The result view, continued *)
Section ViewMoreProperties.
Import Api View.
Variable toLocaleTimeString : string -> string.

Lemma hasTag_video_LoadingView cur :
  existsb (hasTag "video") (LoadingView cur) = false.
Proof.
  unfold LoadingView. cbn -[JobIdDisplay]. by rewrite hasTag_video_JobIdDisplay.
Qed.

Lemma hasTag_video_ContextErrorView e cur :
  existsb (hasTag "video") (ContextErrorView e cur) = false.
Proof.
  unfold ContextErrorView. cbn -[JobIdDisplay].
  by rewrite hasTag_video_JobIdDisplay.
Qed.

Lemma hasTag_video_ProcessingView loading jobDetails jobUpdates :
  existsb (hasTag "video")
    (ProcessingView toLocaleTimeString loading jobDetails jobUpdates) = false.
Proof.
  unfold ProcessingView. cbn -[JobIdDisplay UpdatesTimeline app].
  rewrite !existsb_app, hasTag_video_JobIdDisplay, hasTag_video_UpdatesTimeline.
  by destruct loading.
Qed.

Lemma hasTag_video_WaitingView cur :
  existsb (hasTag "video") (WaitingView cur) = false.
Proof.
  unfold WaitingView. cbn -[JobIdDisplay].
  destruct (Js.truthy cur); [|done]. by rewrite hasTag_video_JobIdDisplay.
Qed.

(** X18: the result view holds a video element only for a job that is
    completed, with [video_available] true and a [video_url] that is not
    empty; no other state of the context (loading, error, failed,
    processing, unknown status) ever renders one. *)
Theorem JobResult_video_only_when_completed :
  forall st currentJobId,
    existsb (hasTag "video") (JobResult toLocaleTimeString st currentJobId) = true ->
    exists d u,
      JobContext.jobData st = Some d
      /\ JobDetails.status (job d) = "completed"
      /\ JobDetails.video_available (job d) = Some true
      /\ JobDetails.video_url (job d) = Some u
      /\ u <> "".
Proof.
  intros st cur. unfold JobResult.
  destruct (JobContext.jobData st) as [d|].
  - destruct (Js.seq _ "failed" || Js.seq _ "error");
      [by rewrite FailedView_no_video|].
    destruct (Js.seq (JobDetails.status (job d)) "completed") eqn:Hs.
    + rewrite CompletedView_video, andb_true_iff, absoluteVideoUrl_truthy.
      intros [Ha (u & Hu & Hne)]. exists d, u. apply seq_true_iff in Hs.
      destruct (JobDetails.video_available (job d)) as [[]|]; by try discriminate.
    + destruct (_ || _); [by rewrite hasTag_video_ProcessingView|].
      by rewrite hasTag_video_WaitingView.
  - destruct (_ && _); [by rewrite hasTag_video_LoadingView|].
    destruct (Js.truthy_opt _); [by rewrite hasTag_video_ContextErrorView | done].
Qed.

Lemma attrValues_video_getStatusIcon name status :
  attrValues "video" name (getStatusIcon status) = [].
Proof.
  unfold getStatusIcon.
  repeat match goal with |- context [if ?b then _ else _] => destruct b end;
    reflexivity.
Qed.

Lemma attrValues_video_JobIdDisplay name id :
  flat_map (attrValues "video" name) (JobIdDisplay id) = [].
Proof. unfold JobIdDisplay. by destruct (negb _). Qed.

Lemma attrValues_video_rows name us :
  flat_map (attrValues "video" name) (map (updateRow toLocaleTimeString) us) = [].
Proof.
  induction us as [|u us IH]; [done|].
  cbn. rewrite attrValues_video_getStatusIcon, IH.
  by destruct (Js.truthy _).
Qed.

Lemma attrValues_video_UpdatesTimeline name updates title :
  flat_map (attrValues "video" name)
    (UpdatesTimeline toLocaleTimeString updates title) = [].
Proof.
  unfold UpdatesTimeline. destruct updates as [|u us]; [done|].
  cbn -[updateRow map]. by rewrite attrValues_video_rows.
Qed.

(** X19: the source of the video player is the [video_url] of the job
    put after the fixed origin [http://127.0.0.1:8000], whatever base
    URL the API functions are configured with; the player is the only
    video element of the view. *)
Theorem JobResult_video_src :
  forall st currentJobId d u,
    JobContext.jobData st = Some d ->
    JobDetails.status (job d) = "completed" ->
    JobDetails.video_available (job d) = Some true ->
    JobDetails.video_url (job d) = Some u ->
    u <> "" ->
    flat_map (attrValues "video" "src") (JobResult toLocaleTimeString st currentJobId)
    = ["http://127.0.0.1:8000" ++ u].
Proof.
  intros st cur d u Hd Hs Ha Hu Hne.
  rewrite (JobResult_completed _ _ _ _ Hd Hs). unfold CompletedView, absoluteVideoUrl.
  rewrite Ha, Hu.
  assert (Js.truthy u = true) as ->.
  { destruct (Js.truthy u) eqn:Ht; [done|]. by apply truthy_false_iff in Ht. }
  cbn -[JobIdDisplay UpdatesTimeline].
  rewrite !flat_map_app, attrValues_video_JobIdDisplay,
    attrValues_video_UpdatesTimeline.
  by destruct (Js.truthy_opt (JobDetails.result (job d))).
Qed.

End ViewMoreProperties.

Section ViewVideoExamples.
Import Api View.

Lemma JobResult_video_only_when_completed_witness :
  exists d u,
    JobContext.jobData
      (Samples.holding (Samples.snapshot "job-1" "completed" None (Some true)
                          (Some "/api/videos/job-1"))) = Some d
    /\ JobDetails.status (job d) = "completed"
    /\ JobDetails.video_available (job d) = Some true
    /\ JobDetails.video_url (job d) = Some u
    /\ u <> "".
Proof.
  apply (JobResult_video_only_when_completed (fun s => s)
           (Samples.holding (Samples.snapshot "job-1" "completed" None (Some true)
                               (Some "/api/videos/job-1")))
           "job-1").
  reflexivity.
Defined.
Lemma JobResult_video_src_witness :
  flat_map (attrValues "video" "src")
    (JobResult (fun s => s)
       (Samples.holding (Samples.snapshot "job-1" "completed" None (Some true)
                           (Some "/api/videos/job-1")))
       "job-1")
  = ["http://127.0.0.1:8000/api/videos/job-1"].
Proof.
  apply (JobResult_video_src (fun s => s)
           (Samples.holding (Samples.snapshot "job-1" "completed" None (Some true)
                               (Some "/api/videos/job-1")))
           "job-1"
           (Samples.snapshot "job-1" "completed" None (Some true)
              (Some "/api/videos/job-1"))
           "/api/videos/job-1");
    reflexivity || discriminate.
Defined.
End ViewVideoExamples.

Section ViewTimelineProperties.
Import Api View.
Variable toLocaleTimeString : string -> string.

Lemma headings_getStatusIcon status : headings (getStatusIcon status) = [].
Proof.
  unfold getStatusIcon.
  repeat match goal with |- context [if ?b then _ else _] => destruct b end;
    reflexivity.
Qed.

Lemma headings_JobIdDisplay id : flat_map headings (JobIdDisplay id) = [].
Proof. unfold JobIdDisplay. by destruct (negb _). Qed.

Lemma headings_rows us :
  flat_map headings (map (updateRow toLocaleTimeString) us) = [].
Proof.
  induction us as [|u us IH]; [done|].
  cbn. rewrite headings_getStatusIcon, IH. by destruct (Js.truthy _).
Qed.

Lemma headings_UpdatesTimeline updates title :
  flat_map headings (UpdatesTimeline toLocaleTimeString updates title)
  = match updates with [] => [] | _ :: _ => [title] end.
Proof.
  unfold UpdatesTimeline. destruct updates as [|u us]; [done|].
  cbn -[updateRow map]. by rewrite headings_rows.
Qed.

Lemma headings_FailedView jobDetails jobUpdates :
  flat_map headings (FailedView toLocaleTimeString jobDetails jobUpdates)
  = "Generation Failed"
    :: match jobUpdates with [] => [] | _ :: _ => ["Attempt Details"] end.
Proof.
  unfold FailedView. cbn -[JobIdDisplay UpdatesTimeline app].
  rewrite !flat_map_app, headings_JobIdDisplay, headings_UpdatesTimeline.
  by destruct jobUpdates.
Qed.

Lemma headings_CompletedView jobDetails jobUpdates :
  flat_map headings (CompletedView toLocaleTimeString jobDetails jobUpdates)
  = match jobUpdates with [] => [] | _ :: _ => ["Generation Timeline"] end.
Proof.
  unfold CompletedView. cbn -[JobIdDisplay UpdatesTimeline app absoluteVideoUrl].
  rewrite !flat_map_app, headings_JobIdDisplay, headings_UpdatesTimeline.
  destruct (_ && _), (Js.truthy_opt (JobDetails.result jobDetails)), jobUpdates;
    reflexivity.
Qed.

Lemma headings_ProcessingView loading jobDetails jobUpdates :
  flat_map headings (ProcessingView toLocaleTimeString loading jobDetails jobUpdates)
  = match jobUpdates with [] => [] | _ :: _ => ["Current Progress"] end.
Proof.
  unfold ProcessingView. cbn -[JobIdDisplay UpdatesTimeline app].
  rewrite !flat_map_app, headings_JobIdDisplay, headings_UpdatesTimeline.
  destruct loading, jobUpdates; reflexivity.
Qed.

Lemma headings_WaitingView cur : flat_map headings (WaitingView cur) = [].
Proof.
  unfold WaitingView. cbn -[JobIdDisplay].
  destruct (Js.truthy cur); [|done]. by rewrite headings_JobIdDisplay.
Qed.

(** X20: when the updates of a job are on screen.  With a snapshot in the
    context, the result view shows the timeline of updates (under the
    heading "Attempt Details", "Generation Timeline" or "Current
    Progress") exactly when there is at least one update and the status
    is one of failed, error, completed, pending, processing and created;
    under every other status, the in-progress statuses of the pipeline
    among them, the view is the waiting notice and shows no update. *)
Theorem JobResult_timeline_iff :
  forall st currentJobId d,
    JobContext.jobData st = Some d ->
    let v := JobResult toLocaleTimeString st currentJobId in
    ((exists t, In t ["Attempt Details"; "Generation Timeline"; "Current Progress"]
                /\ In t (flat_map headings v))
     <-> updates d <> []
         /\ In (JobDetails.status (job d))
              ["failed"; "error"; "completed"; "pending"; "processing"; "created"])
    /\ (~ In (JobDetails.status (job d))
            ["failed"; "error"; "completed"; "pending"; "processing"; "created"] ->
        v = WaitingView currentJobId).
Proof.
  intros st cur d Hd v. subst v. unfold JobResult. rewrite Hd.
  generalize (JobDetails.status (job d)). intros s. unfold Js.seq.
  assert (Hcase :
    forall (shown : list string) (t : string) (view : list Html),
      In t ["Attempt Details"; "Generation Timeline"; "Current Progress"] ->
      ~ In t shown ->
      (forall t', In t' shown ->
         ~ In t' ["Attempt Details"; "Generation Timeline"; "Current Progress"]) ->
      In s ["failed"; "error"; "completed"; "pending"; "processing"; "created"] ->
      ((exists t0,
           In t0 ["Attempt Details"; "Generation Timeline"; "Current Progress"]
           /\ In t0 (shown ++ match updates d with [] => [] | _ :: _ => [t] end))
       <-> updates d <> []
           /\ In s ["failed"; "error"; "completed"; "pending"; "processing"; "created"])
      /\ (~ In s ["failed"; "error"; "completed"; "pending"; "processing"; "created"] ->
          view = WaitingView cur)).
  { intros shown t view Ht Hnt Hshown Hs. split; [|done].
    destruct (updates d) as [|u us]; rewrite ?app_nil_r; split.
    - intros (t0 & H0 & Hin). by apply Hshown in Hin.
    - by intros [? _].
    - done.
    - intros _. exists t. split; [done|]. apply in_or_app. right. by left. }
  destruct (String.eqb_spec s "failed") as [->|N1]; cbn [orb].
  { rewrite headings_FailedView.
    apply (Hcase ["Generation Failed"] "Attempt Details"); cbn;
      intuition congruence. }
  destruct (String.eqb_spec s "error") as [->|N2]; cbn [orb].
  { rewrite headings_FailedView.
    apply (Hcase ["Generation Failed"] "Attempt Details"); cbn;
      intuition congruence. }
  destruct (String.eqb_spec s "completed") as [->|N3].
  { rewrite headings_CompletedView.
    apply (Hcase [] "Generation Timeline"); cbn; intuition congruence. }
  destruct (String.eqb_spec s "pending") as [->|N4]; cbn [orb].
  { rewrite headings_ProcessingView.
    apply (Hcase [] "Current Progress"); cbn; intuition congruence. }
  destruct (String.eqb_spec s "processing") as [->|N5]; cbn [orb].
  { rewrite headings_ProcessingView.
    apply (Hcase [] "Current Progress"); cbn; intuition congruence. }
  destruct (String.eqb_spec s "created") as [->|N6].
  { rewrite headings_ProcessingView.
    apply (Hcase [] "Current Progress"); cbn; intuition congruence. }
  rewrite headings_WaitingView. split; [|done].
  split; [by intros (t & _ & []) |].
  intros [_ H]. cbn in H. intuition congruence.
Qed.
End ViewTimelineProperties.

Section ViewTimelineExamples.
Import Api View.

Lemma JobResult_timeline_iff_witness :
  JobResult (fun s => s)
    (Samples.holding (Samples.snapshot "job-1" "script_generating" None None None))
    "job-1"
  = WaitingView "job-1".
Proof.
  destruct (JobResult_timeline_iff (fun s => s)
              (Samples.holding
                 (Samples.snapshot "job-1" "script_generating" None None None))
              "job-1"
              (Samples.snapshot "job-1" "script_generating" None None None)
              eq_refl) as [_ H].
  apply H. cbn. intuition discriminate.
Defined.
End ViewTimelineExamples.

(** ** The process steps *)
Section ProcessStepsProperties.
Import View ProcessSteps.




End ProcessStepsProperties.
